(** * restrain_pucker_idoa: dihedral restraints for the IdoA ring pucker

    A shallow embedding of [restrain_pucker_idoa.py].  The script has two
    functions: [get_dict_selections] scans the lines of a GROMACS [.itp]
    topology and builds a dictionary from ["AtomName_ResidueID"] to atom
    index; [format_restraint] turns that dictionary into a
    [dihedral_restraints] block and prints it.

    Python values are modelled as follows.
    - [str] is [string]; a character is a code point below 256.
    - a [list] is a [list]; subscripting goes through [getitem], which
      implements Python's negative indices and raises [IndexError].
    - a [dict] is an association list in insertion order, without duplicate
      keys; [dict_set] overwrites in place or appends, as Python does.
    - exceptions are the [Raise] branch of [result].
    - the file is given by the list returned by [readlines]; the text sent
      to standard output is the value returned by [format_restraint]. *)

From Stdlib Require Import String Ascii List Bool Arith ZArith Lia.
From Stdlib Require Import Permutation.
Import ListNotations.
Open Scope list_scope.
Open Scope string_scope.

(** ** Exceptions *)

(** The exceptions that the code modelled here raises.  The model starts
    from the lines that [readlines] returned; what [open] and [readlines]
    themselves may raise is outside it. *)
Inductive exn : Type :=
| IndexError
| KeyError (key : string).

Inductive result (A : Type) : Type :=
| Ok (a : A)
| Raise (e : exn).

Arguments Ok {A} a.
Arguments Raise {A} e.

Definition bind {A B : Type} (m : result A) (k : A -> result B) : result B :=
  match m with
  | Ok a => k a
  | Raise e => Raise e
  end.

Notation "x <- m ;; k" := (bind m (fun x => k))
  (at level 61, m at next level, right associativity).

(** ** Strings *)

(** The line terminator kept by [readlines] and written by [print]. *)
Definition nl : string := String "010" "".

(** A line as [readlines] returns it: the text and its terminator. *)
Definition ln (s : string) : string := s ++ nl.

(** [sub in s] on [str]: [sub] occurs in [s] as a contiguous substring. *)
Fixpoint contains (sub s : string) : bool :=
  prefix sub s ||
  match s with
  | EmptyString => false
  | String _ s' => contains sub s'
  end.

(** [str.isspace] on one character, for code points below 256. *)
Definition isspace (c : ascii) : bool :=
  let n := nat_of_ascii c in
  (((9 <=? n) && (n <=? 13)) || ((28 <=? n) && (n <=? 32))
   || (n =? 133) || (n =? 160))%nat.

(** [s.split()]: split on runs of whitespace, dropping empty fields.
    [tok] is the field being read. *)
Fixpoint split_from (tok s : string) : list string :=
  match s with
  | EmptyString => if (tok =? "") then [] else [tok]
  | String c s' =>
      if isspace c
      then (if (tok =? "") then split_from "" s' else tok :: split_from "" s')
      else split_from (tok ++ String c "") s'
  end.

Definition split (s : string) : list string := split_from "" s.

(** [s.split(sep)] for a one-character separator: empty fields are kept,
    so the result always has at least one element. *)
Fixpoint split_sep_from (sep : ascii) (tok s : string) : list string :=
  match s with
  | EmptyString => [tok]
  | String c s' =>
      if Ascii.eqb c sep
      then tok :: split_sep_from sep "" s'
      else split_sep_from sep (tok ++ String c "") s'
  end.

Definition split_sep (sep : ascii) (s : string) : list string :=
  split_sep_from sep "" s.

(** ** Lists and dictionaries *)

(** [l[i]]: a negative [i] counts from the end. *)
Definition getitem {A : Type} (l : list A) (i : Z) : result A :=
  let n := Z.of_nat (length l) in
  let j := (if i <? 0 then n + i else i)%Z in
  if ((0 <=? j) && (j <? n))%Z
  then match nth_error l (Z.to_nat j) with
       | Some a => Ok a
       | None => Raise IndexError
       end
  else Raise IndexError.

(** [any(p(x) for x in l)]. *)
Definition any {A : Type} (p : A -> bool) (l : list A) : bool := existsb p l.

Definition dict : Type := list (string * string).

Definition keys (d : dict) : list string := map fst d.

Fixpoint dict_get (d : dict) (k : string) : option string :=
  match d with
  | [] => None
  | (k', v) :: d' => if (k' =? k) then Some v else dict_get d' k
  end.

(** [d[k]] as an expression. *)
Definition lookup (d : dict) (k : string) : result string :=
  match dict_get d k with
  | Some v => Ok v
  | None => Raise (KeyError k)
  end.

(** [d[k] = v]: an existing key keeps its position. *)
Fixpoint dict_set (k v : string) (d : dict) : dict :=
  match d with
  | [] => [(k, v)]
  | (k', v') :: d' =>
      if (k' =? k) then (k', v) :: d' else (k', v') :: dict_set k v d'
  end.

(** ** The selector: [get_dict_selections] *)

Definition idoa_names : list string := ["YuA"; "AIDOA"].
Definition atom_names : list string := ["C1"; "O5"; "C5"; "C4"; "C2"; "C3"].

(** The body of [if start:], lines 52-58. *)
Definition select (line : string) (dictionary : dict) : result dict :=
  let line := split line in
  resname <- getitem line 3 ;;
  if any (fun idoa => contains idoa resname) idoa_names then
    name <- getitem line 4 ;;
    if any (fun atom => contains atom name) atom_names then
      resid <- getitem line 2 ;;
      let string := name ++ "_" ++ resid in
      index <- getitem line 0 ;;
      Ok (dict_set string index dictionary)
    else Ok dictionary
  else Ok dictionary.

(** The loop [for i, line in enumerate(lines)], lines 46-62.  [todo] is the
    part of [lines] still to be enumerated, [i] the index of its head. *)
Fixpoint scan (lines : list string) (i : nat) (todo : list string)
    (start : bool) (dictionary : dict) : result dict :=
  match todo with
  | [] => Ok dictionary
  | line :: todo' =>
      next <- getitem lines (Z.of_nat i + 1) ;;
      if contains "[ bonds ]" next then Ok dictionary
      else
        dictionary' <- (if start then select line dictionary
                        else Ok dictionary) ;;
        prev <- getitem lines (Z.of_nat i - 1) ;;
        scan lines (S i) todo' (start || contains "[ atoms ]" prev)
             dictionary'
  end.

Definition get_dict_selections (lines : list string) : result dict :=
  scan lines 0 lines false [].

(** ** The formatter: [format_restraint] *)

(** [OrderedSet(l)] of the [ordered_set] package: the elements of [l] are
    added one at a time, and adding an element already present changes
    nothing. *)
Definition oset_add (s : list string) (x : string) : list string :=
  if existsb (String.eqb x) s then s else (s ++ [x])%list.

Definition oset (l : list string) : list string := fold_left oset_add l [].

(** A list comprehension [[f(x) for x in l]] whose body may raise. *)
Fixpoint comprehension {A B : Type} (f : A -> result B) (l : list A)
  : result (list B) :=
  match l with
  | [] => Ok []
  | x :: l' => y <- f x ;; ys <- comprehension f l' ;; Ok (y :: ys)
  end.

(** Line 79: [oset([k.split('_')[1] for k in dictio.keys()])]. *)
Definition resids_of (dictio : dict) : result (list string) :=
  ids <- comprehension (fun k => getitem (split_sep "_" k) 1) (keys dictio) ;;
  Ok (oset ids).

(** One of the f-strings of lines 91-96: four substituted indices, the
    literal rest of the line, and the line terminator. *)
Definition restraint_text (a b c d rest : string) : string :=
  "    " ++ a ++ "   " ++ b ++ "   " ++ c ++ "   " ++ d ++ rest.

Definition restraint (a b c d rest : string) : string :=
  restraint_text a b c d rest ++ nl.

(** The six lines added to [string] for one residue, lines 91-96. *)
Definition six_restraints (c1 o5 c5 c4 c3 c2 : string) : list string :=
  [ restraint c1 o5 c5 c4
      "     1    -60.0      2.5       DIHRES_FC ; C1    O5    C5    C4";
    restraint o5 c5 c4 c3
      "     1     60.0      2.5       DIHRES_FC ; O5    C5    C4    C3";
    restraint c5 c4 c3 c2
      "     1    -60.0      2.5       DIHRES_FC ; C5    C4    C3    C2";
    restraint c4 c3 c2 c1
      "     1     60.0      2.5       DIHRES_FC ; C4    C3    C2    C1";
    restraint c3 c2 c1 o5
      "     1    -60.0      2.5       DIHRES_FC ; C3    C2    C1    O5";
    restraint c2 c1 o5 c5
      "     1     60.0      2.5       DIHRES_FC ; C2    C1    O5    C5" ].

(** The six subscript expressions of lines 83-88, in source order. *)
Definition ring_atoms (dictio : dict) (resid : string)
  : result (list string) :=
  c1 <- lookup dictio ("C1_" ++ resid) ;;
  o5 <- lookup dictio ("O5_" ++ resid) ;;
  c5 <- lookup dictio ("C5_" ++ resid) ;;
  c4 <- lookup dictio ("C4_" ++ resid) ;;
  c3 <- lookup dictio ("C3_" ++ resid) ;;
  c2 <- lookup dictio ("C2_" ++ resid) ;;
  Ok (six_restraints c1 o5 c5 c4 c3 c2).

(** The loop [for resid in resids], lines 81-96; [string] accumulates. *)
Fixpoint restrain (dictio : dict) (resids : list string)
    (string : String.string) : result String.string :=
  match resids with
  | [] => Ok string
  | resid :: resids' =>
      added <- ring_atoms dictio resid ;;
      restrain dictio resids' (string ++ String.concat "" added)
  end.

(** [print(s)]: the text written to standard output. *)
Definition print (s : string) : string := s ++ nl.

(** The result is the text printed; an exception leaves nothing printed,
    since [print] is the last statement. *)
Definition format_restraint (dictio : dict) : result string :=
  let string := "#ifdef PUCKER" ++ nl in
  let string := string ++ "[ dihedral_restraints ]" ++ nl in
  resids <- resids_of dictio ;;
  string <- restrain dictio resids string ;;
  let string := string ++ "#endif" in
  Ok (print string).

(** Lines 108-109: the selector followed by the formatter. *)
Definition main (lines : list string) : result string :=
  dictio <- get_dict_selections lines ;;
  format_restraint dictio.

(** * Reading the loop of the selector *)

(** The same loop without subscripts: [prev] is [lines[i-1]] and the
    lookahead [lines[i+1]] is the second element of [todo].  Lemma
    [scan_scan_from] shows that [scan] computes this. *)
Fixpoint scan_from (prev : string) (todo : list string) (start : bool)
    (dictionary : dict) : result dict :=
  match todo with
  | [] => Ok dictionary
  | line :: todo' =>
      match todo' with
      | [] => Raise IndexError
      | next :: _ =>
          if contains "[ bonds ]" next then Ok dictionary
          else
            dictionary' <- (if start then select line dictionary
                            else Ok dictionary) ;;
            scan_from line todo' (start || contains "[ atoms ]" prev)
                      dictionary'
      end
  end.

(** The line that [lines[i-1]] denotes when [done] are the [i] lines
    already enumerated and [todo] the others: for [i = 0] the subscript is
    [-1], the last line of the file. *)
Definition lookback (done todo : list string) : string :=
  match done with
  | [] => last todo ""
  | _ :: _ => last done ""
  end.

(** [select] applied to each line in turn, stopping at the first
    exception. *)
Fixpoint select_all (ls : list string) (dictionary : dict) : result dict :=
  match ls with
  | [] => Ok dictionary
  | line :: ls' =>
      dictionary' <- select line dictionary ;; select_all ls' dictionary'
  end.

(** The value of [start] at the top of iteration [i]: some earlier
    iteration [j] found the marker in [lines[j-1]]. *)
Definition started (lines : list string) (i : nat) : bool :=
  existsb (fun j => match getitem lines (Z.of_nat j - 1) with
                    | Ok prev => contains "[ atoms ]" prev
                    | Raise _ => false
                    end) (seq 0 i).

(** Iteration [i] is reached and does not [break]: up to [i], every
    lookahead [lines[j+1]] exists and holds no [[ bonds ]] marker. *)
Definition passes (lines : list string) (i : nat) : bool :=
  forallb (fun j => match getitem lines (Z.of_nat j + 1) with
                    | Ok next => negb (contains "[ bonds ]" next)
                    | Raise _ => false
                    end) (seq 0 (S i)).

(** Line [i] goes through the body of [if start:]. *)
Definition active (lines : list string) (i : nat) : bool :=
  started lines i && passes lines i.

(** The active lines of a file, in order. *)
Definition parsed (lines : list string) : list string :=
  map snd (filter (fun p => active lines (fst p))
             (combine (seq 0 (length lines)) lines)).

(** What a line adds to the dictionary when [select] runs on it: read off
    [select] on the empty dictionary. *)
Definition entry (line : string) : option (string * string) :=
  match select line [] with
  | Ok [(k, v)] => Some (k, v)
  | _ => None
  end.

(** The line writes nothing under key [k]. *)
Definition silent_on (k : string) (line : string) : Prop :=
  forall v, entry line <> Some (k, v).

(** [sub] occurs in [s]: what [sub in s] decides. *)
Definition is_substring (sub s : string) : Prop :=
  exists pre post, s = pre ++ sub ++ post.

(** The fields that [select] reads exist: field 3 always, field 4 (and
    with it 2 and 0) when the residue type is one of the IdoA names. *)
Definition well_formed (line : string) : bool :=
  let fields := split line in
  match nth_error fields 3 with
  | None => false
  | Some resname =>
      if any (fun idoa => contains idoa resname) idoa_names
      then (5 <=? length fields)%nat
      else true
  end.

(** ** Example files *)

(** Records placed directly between the two section headers. *)
Definition headers_only_file : list string :=
  [ ln "[ atoms ]";
    ln "10 x 5 AIDOA C1";
    ln "11 x 5 AIDOA O5";
    ln "12 x 5 AIDOA C5";
    ln "[ bonds ]" ].

(** The usual layout: a column-title comment after [[ atoms ]] and an
    empty line before [[ bonds ]]; one record has four fields. *)
Definition short_record_file : list string :=
  [ ln "[ atoms ]";
    ln "; nr type resnr residue atom";
    ln "10 x 5 AIDOA C1";
    ln "20 y 6 GLC";
    ln "11 x 5 AIDOA O5";
    nl;
    ln "[ bonds ]" ].

(** An atoms section that is never closed by [[ bonds ]]. *)
Definition unterminated_file : list string :=
  [ ln "[ atoms ]";
    ln "; nr type resnr residue atom";
    ln "10 x 5 AIDOA C1";
    ln "11 x 5 AIDOA O5" ].

(** A well-formed atoms section without any IdoA residue. *)
Definition no_match_file : list string :=
  [ ln "[ atoms ]";
    ln "; nr type resnr residue atom";
    ln "1 x 1 GLC C1";
    ln "2 x 1 GLC O5";
    nl;
    ln "[ bonds ]" ].

(** A residue whose atom [C1] is listed twice. *)
Definition duplicate_file : list string :=
  [ ln "[ atoms ]";
    ln "; nr type resnr residue atom";
    ln "10 x 5 AIDOA C1";
    ln "11 x 5 AIDOA O5";
    ln "99 x 5 AIDOA C1";
    nl;
    ln "[ bonds ]" ].

(** * Reading the output of the formatter *)

(** The character [c] occurs in [s]. *)
Fixpoint has_char (c : ascii) (s : string) : bool :=
  match s with
  | EmptyString => false
  | String c' s' => Ascii.eqb c' c || has_char c s'
  end.

(** The lines of a text: [s.split('\n')]. *)
Definition lines_of (s : string) : list string := split_sep "010" s.

(** The text of [s] after its first [sep], and up to its first [sep]. *)
Fixpoint after_first (sep : ascii) (s : string) : string :=
  match s with
  | EmptyString => EmptyString
  | String c s' => if Ascii.eqb c sep then s' else after_first sep s'
  end.

Fixpoint before_first (sep : ascii) (s : string) : string :=
  match s with
  | EmptyString => EmptyString
  | String c s' =>
      if Ascii.eqb c sep then EmptyString
      else String c (before_first sep s')
  end.

(** The residue id that line 79 derives from a key: the text between the
    first underscore and the next one, if any. *)
Definition derived_id (k : string) : string :=
  before_first "_" (after_first "_" k).

(** Each element kept at its first occurrence only: the head, then the
    first occurrences of the rest without the head.  [n] bounds the
    depth of the recursion. *)
Fixpoint first_occurrences_upto (n : nat) (l : list string) : list string :=
  match n, l with
  | S n', x :: l' =>
      x :: first_occurrences_upto n'
             (filter (fun y => negb (String.eqb y x)) l')
  | _, _ => []
  end.

Definition first_occurrences (l : list string) : list string :=
  first_occurrences_upto (length l) l.

(** The six atom names that [ring_atoms] looks up, in source order. *)
Definition ring_names : list string := ["C1"; "O5"; "C5"; "C4"; "C3"; "C2"].

(** The index that the dictionary holds for atom [a] of residue [r]. *)
Definition index_of (d : dict) (a r : string) : string :=
  match dict_get d (a ++ "_" ++ r) with
  | Some v => v
  | None => ""
  end.

(** The six restraint lines expected for residue [r], written out: four
    spaces, the four indices three spaces apart, and the fixed fields. *)
Definition expected_block (d : dict) (r : string) : list string :=
  let c1 := index_of d "C1" r in
  let o5 := index_of d "O5" r in
  let c5 := index_of d "C5" r in
  let c4 := index_of d "C4" r in
  let c3 := index_of d "C3" r in
  let c2 := index_of d "C2" r in
  [ "    " ++ c1 ++ "   " ++ o5 ++ "   " ++ c5 ++ "   " ++ c4 ++
    "     1    -60.0      2.5       DIHRES_FC ; C1    O5    C5    C4";
    "    " ++ o5 ++ "   " ++ c5 ++ "   " ++ c4 ++ "   " ++ c3 ++
    "     1     60.0      2.5       DIHRES_FC ; O5    C5    C4    C3";
    "    " ++ c5 ++ "   " ++ c4 ++ "   " ++ c3 ++ "   " ++ c2 ++
    "     1    -60.0      2.5       DIHRES_FC ; C5    C4    C3    C2";
    "    " ++ c4 ++ "   " ++ c3 ++ "   " ++ c2 ++ "   " ++ c1 ++
    "     1     60.0      2.5       DIHRES_FC ; C4    C3    C2    C1";
    "    " ++ c3 ++ "   " ++ c2 ++ "   " ++ c1 ++ "   " ++ o5 ++
    "     1    -60.0      2.5       DIHRES_FC ; C3    C2    C1    O5";
    "    " ++ c2 ++ "   " ++ c1 ++ "   " ++ o5 ++ "   " ++ c5 ++
    "     1     60.0      2.5       DIHRES_FC ; C2    C1    O5    C5" ].

(** The lines expected on standard output for the residue ids [rs]. *)
Definition expected_lines (d : dict) (rs : list string) : list string :=
  ("#ifdef PUCKER" :: "[ dihedral_restraints ]"
     :: flat_map (expected_block d) rs ++ ["#endif"])%list.

(** The opening lines and the closing line of the block. *)
Definition opening : string :=
  "#ifdef PUCKER" ++ nl ++ "[ dihedral_restraints ]" ++ nl.
Definition closing : string := "#endif".

(** ** The scenario of the specification *)

(** The six records of residue 5, residue type AIDOA. *)
Definition ring_records : list string :=
  [ ln "10 x 5 AIDOA C1";
    ln "11 x 5 AIDOA O5";
    ln "12 x 5 AIDOA C5";
    ln "13 x 5 AIDOA C4";
    ln "14 x 5 AIDOA C3";
    ln "15 x 5 AIDOA C2" ].

(** The block the specification gives for them, as printed. *)
Definition scenario_output : string :=
  "#ifdef PUCKER" ++ nl ++
  "[ dihedral_restraints ]" ++ nl ++
  "    10   11   12   13     1    -60.0      2.5       DIHRES_FC ; C1    O5    C5    C4" ++ nl ++
  "    11   12   13   14     1     60.0      2.5       DIHRES_FC ; O5    C5    C4    C3" ++ nl ++
  "    12   13   14   15     1    -60.0      2.5       DIHRES_FC ; C5    C4    C3    C2" ++ nl ++
  "    13   14   15   10     1     60.0      2.5       DIHRES_FC ; C4    C3    C2    C1" ++ nl ++
  "    14   15   10   11     1    -60.0      2.5       DIHRES_FC ; C3    C2    C1    O5" ++ nl ++
  "    15   10   11   12     1     60.0      2.5       DIHRES_FC ; C2    C1    O5    C5" ++ nl ++
  "#endif" ++ nl.

(** The records placed directly between the two section headers. *)
Definition scenario_headers_only : list string :=
  (ln "[ atoms ]" :: ring_records ++ [ln "[ bonds ]"])%list.

(** All the orders in which a list can be arranged. *)
Fixpoint inserts {A : Type} (x : A) (l : list A) : list (list A) :=
  match l with
  | [] => [[x]]
  | y :: l' => (x :: l) :: map (cons y) (inserts x l')
  end.

Fixpoint perms {A : Type} (l : list A) : list (list A) :=
  match l with
  | [] => [[]]
  | x :: l' => flat_map (inserts x) (perms l')
  end.

(** The formatter run on the dictionary that [select] builds from [ls]
    prints [expected]. *)
Definition prints (expected : string) (ls : list string) : bool :=
  match (dictio <- select_all ls [] ;; format_restraint dictio) with
  | Ok out => String.eqb out expected
  | Raise _ => false
  end.

(** ** Example dictionaries *)

(** Two residues, 5 and 6. *)
Definition two_residue_file : list string :=
  [ ln "[ atoms ]";
    ln "; nr type resnr residue atom";
    ln "10 x 5 AIDOA C1"; ln "11 x 5 AIDOA O5"; ln "12 x 5 AIDOA C5";
    ln "13 x 5 AIDOA C4"; ln "14 x 5 AIDOA C3"; ln "15 x 5 AIDOA C2";
    ln "20 x 6 YuA C1"; ln "21 x 6 YuA O5"; ln "22 x 6 YuA C5";
    ln "23 x 6 YuA C4"; ln "24 x 6 YuA C3"; ln "25 x 6 YuA C2";
    nl;
    ln "[ bonds ]" ].

Definition two_residue_dict : dict :=
  [ ("C1_5", "10"); ("O5_5", "11"); ("C5_5", "12");
    ("C4_5", "13"); ("C3_5", "14"); ("C2_5", "15");
    ("C1_6", "20"); ("O5_6", "21"); ("C5_6", "22");
    ("C4_6", "23"); ("C3_6", "24"); ("C2_6", "25") ].

(** Residue 6 lacks its [C4]. *)
Definition missing_atom_dict : dict :=
  [ ("C1_5", "10"); ("O5_5", "11"); ("C5_5", "12");
    ("C4_5", "13"); ("C3_5", "14"); ("C2_5", "15");
    ("C1_6", "20"); ("O5_6", "21"); ("C5_6", "22");
    ("C3_6", "24"); ("C2_6", "25") ].

(** A residue whose id, [7_b], itself contains an underscore, with its
    six ring atoms. *)
Definition underscore_residue_file : list string :=
  [ ln "[ atoms ]";
    ln "; nr type resnr residue atom";
    ln "10 x 7_b AIDOA C1";
    ln "11 x 7_b AIDOA O5";
    ln "12 x 7_b AIDOA C5";
    ln "13 x 7_b AIDOA C4";
    ln "14 x 7_b AIDOA C3";
    ln "15 x 7_b AIDOA C2";
    nl;
    ln "[ bonds ]" ].

Definition underscore_residue_dict : dict :=
  [ ("C1_7_b", "10"); ("O5_7_b", "11"); ("C5_7_b", "12");
    ("C4_7_b", "13"); ("C3_7_b", "14"); ("C2_7_b", "15") ].

(** * Further reading of the two functions *)

(** The keys that the lines [ls] store, in the order of the lines. *)
Definition entry_keys (ls : list string) : list string :=
  flat_map (fun line => match entry line with
                        | Some (k, _) => [k]
                        | None => []
                        end) ls.

(** No two of the lines store different values under one key. *)
Definition consistent (ls : list string) : Prop :=
  forall l1 l2 k v1 v2,
    In l1 ls -> In l2 ls ->
    entry l1 = Some (k, v1) -> entry l2 = Some (k, v2) -> v1 = v2.

(** A whitespace character occurs in [s]. *)
Fixpoint has_space (s : string) : bool :=
  match s with
  | EmptyString => false
  | String c s' => isspace c || has_space s'
  end.

(** What [split] returns: a non-empty string without whitespace. *)
Definition is_field (s : string) : Prop :=
  s <> "" /\ has_space s = false.

(** The fields of the six lines of a residue, as [split] reads them. *)
Definition restraint_rows (c1 o5 c5 c4 c3 c2 : string) : list (list string) :=
  [ [c1; o5; c5; c4; "1"; "-60.0"; "2.5"; "DIHRES_FC"; ";";
     "C1"; "O5"; "C5"; "C4"];
    [o5; c5; c4; c3; "1"; "60.0"; "2.5"; "DIHRES_FC"; ";";
     "O5"; "C5"; "C4"; "C3"];
    [c5; c4; c3; c2; "1"; "-60.0"; "2.5"; "DIHRES_FC"; ";";
     "C5"; "C4"; "C3"; "C2"];
    [c4; c3; c2; c1; "1"; "60.0"; "2.5"; "DIHRES_FC"; ";";
     "C4"; "C3"; "C2"; "C1"];
    [c3; c2; c1; o5; "1"; "-60.0"; "2.5"; "DIHRES_FC"; ";";
     "C3"; "C2"; "C1"; "O5"];
    [c2; c1; o5; c5; "1"; "60.0"; "2.5"; "DIHRES_FC"; ";";
     "C2"; "C1"; "O5"; "C5"] ].

(** The block without restraint lines, as it appears on standard
    output. *)
Definition bare_block : string :=
  "#ifdef PUCKER" ++ nl ++
  "[ dihedral_restraints ]" ++ nl ++
  "#endif" ++ nl.

(** ** More example files *)

(** The [[ atoms ]] header is the last line of the file. *)
Definition atoms_last_file : list string :=
  [ ln "; topology";
    ln "10 x 5 AIDOA C1";
    nl;
    ln "[ bonds ]";
    ln "1 2";
    ln "[ atoms ]" ].

(** The [[ bonds ]] section comes before the [[ atoms ]] section. *)
Definition bonds_first_file : list string :=
  [ ln "[ moleculetype ]";
    ln "[ bonds ]";
    ln "1 2";
    ln "[ atoms ]";
    ln "; nr type resnr residue atom";
    ln "10 x 5 AIDOA C1";
    nl ].

(** The only [[ bonds ]] header is the first line of the file. *)
Definition bonds_on_first_line_file : list string :=
  [ ln "[ bonds ]";
    ln "[ atoms ]";
    ln "; nr type resnr residue atom";
    ln "10 x 5 AIDOA C1" ].

(** Residue 6 is listed before residue 5, whose [O5] is missing, and
    residue 6 lacks [C5] and [C3]. *)
Definition two_gaps_dict : dict :=
  [ ("C1_6", "20"); ("O5_6", "21"); ("C4_6", "23"); ("C2_6", "25");
    ("C1_5", "10"); ("C5_5", "12") ].

(** A topology with sections before and after the atoms section. *)
Definition topology_file : list string :=
  [ ln "[ moleculetype ]";
    ln "IDOA 3";
    nl;
    ln "[ atoms ]";
    ln "; nr type resnr residue atom";
    ln "10 x 5 AIDOA C1";
    ln "11 x 5 AIDOA O5";
    nl;
    ln "[ bonds ]";
    ln "10 11";
    nl;
    ln "[ pairs ]" ].

(** Residue 5 with its six ring atoms, and the same with a further entry
    whose atom name merely contains [C1]. *)
Definition ring_dict : dict :=
  [ ("C1_5", "10"); ("O5_5", "11"); ("C5_5", "12");
    ("C4_5", "13"); ("C3_5", "14"); ("C2_5", "15") ].

Definition ring_dict_with_c11 : dict :=
  [ ("C1_5", "10"); ("C11_5", "77"); ("O5_5", "11"); ("C5_5", "12");
    ("C4_5", "13"); ("C3_5", "14"); ("C2_5", "15") ].

(** * Properties *)

(** ** Subscripts *)

Lemma getitem_nat {A : Type} (l : list A) (i : nat) :
  getitem l (Z.of_nat i) =
  match nth_error l i with
  | Some a => Ok a
  | None => Raise IndexError
  end.
Proof.
  unfold getitem.
  destruct (Z.ltb_spec (Z.of_nat i) 0) as [H | _]; [lia |].
  destruct (Z.leb_spec 0 (Z.of_nat i)) as [_ | H]; [| lia].
  rewrite Nat2Z.id. cbn [andb].
  destruct (Z.ltb_spec (Z.of_nat i) (Z.of_nat (length l))) as [H | H].
  - reflexivity.
  - assert (Hn : nth_error l i = None) by (apply nth_error_None; lia).
    now rewrite Hn.
Qed.

Lemma getitem_succ {A : Type} (l : list A) (i : nat) :
  getitem l (Z.of_nat i + 1) =
  match nth_error l (S i) with
  | Some a => Ok a
  | None => Raise IndexError
  end.
Proof.
  replace (Z.of_nat i + 1)%Z with (Z.of_nat (S i)) by lia.
  apply getitem_nat.
Qed.

Lemma getitem_pred {A : Type} (l : list A) (i : nat) :
  getitem l (Z.of_nat (S i) - 1) =
  match nth_error l i with
  | Some a => Ok a
  | None => Raise IndexError
  end.
Proof.
  replace (Z.of_nat (S i) - 1)%Z with (Z.of_nat i) by lia.
  apply getitem_nat.
Qed.

(** [l[-1]] is the last element of a non-empty list. *)
Lemma getitem_last {A : Type} (l : list A) (a : A) :
  getitem (l ++ [a]) (-1) = Ok a.
Proof.
  unfold getitem. rewrite length_app. cbn [length].
  change (-1 <? 0)%Z with true. cbv iota.
  destruct (Z.leb_spec 0 (Z.of_nat (length l + 1) + -1)) as [_ | H]; [| lia].
  destruct (Z.ltb_spec (Z.of_nat (length l + 1) + -1)
              (Z.of_nat (length l + 1))) as [_ | H]; [| lia].
  cbn [andb].
  replace (Z.to_nat (Z.of_nat (length l + 1) + -1)) with (length l) by lia.
  rewrite nth_error_app2 by lia. now rewrite Nat.sub_diag.
Qed.

Lemma getitem_In {A : Type} (l : list A) (i : Z) (a : A) :
  getitem l i = Ok a -> In a l.
Proof.
  unfold getitem.
  destruct (_ && _)%bool; [| discriminate].
  destruct (nth_error l _) eqn:E; [| discriminate].
  intros [= <-]. eapply nth_error_In; eauto.
Qed.

Lemma getitem_IndexError {A : Type} (l : list A) (i : Z) (e : exn) :
  getitem l i = Raise e -> e = IndexError.
Proof.
  unfold getitem.
  destruct (_ && _)%bool; [| congruence].
  destruct (nth_error l _); congruence.
Qed.

(** ** The loop of the selector, without subscripts *)

Lemma lookback_snoc (done todo : list string) (line : string) :
  lookback (done ++ [line])%list todo = line.
Proof.
  unfold lookback.
  destruct (done ++ [line])%list eqn:E.
  - now destruct done.
  - rewrite <- E. apply last_last.
Qed.

Lemma getitem_lookback (done todo : list string) (line : string) :
  getitem (done ++ line :: todo)%list (Z.of_nat (length done) - 1) =
  Ok (lookback done (line :: todo)).
Proof.
  destruct (exists_last (l := line :: todo) ltac:(discriminate))
    as (front & z & Ez).
  destruct done as [| d0 done'].
  - cbn [app length lookback]. rewrite Ez.
    change (Z.of_nat 0 - 1)%Z with (-1)%Z.
    now rewrite getitem_last, last_last.
  - destruct (exists_last (l := d0 :: done') ltac:(discriminate))
      as (dfront & dz & Ed).
    replace (lookback (d0 :: done') (line :: todo)) with dz.
    2:{ unfold lookback. now rewrite Ed, last_last. }
    cbn [length]. rewrite getitem_pred.
    rewrite nth_error_app1 by (cbn [length]; lia).
    rewrite Ed.
    assert (Hlen : length done' = length dfront).
    { apply (f_equal (@length _)) in Ed. rewrite length_app in Ed.
      cbn [length] in Ed. lia. }
    rewrite Hlen, nth_error_app2 by lia.
    now rewrite Nat.sub_diag.
Qed.

Lemma scan_scan_from (todo done : list string) (start : bool) (d : dict) :
  scan (done ++ todo)%list (length done) todo start d =
  scan_from (lookback done todo) todo start d.
Proof.
  revert done start d.
  induction todo as [| line todo' IH]; intros done start d.
  - reflexivity.
  - cbn [scan scan_from].
    rewrite getitem_succ.
    replace (nth_error (done ++ line :: todo')%list (S (length done)))
      with (nth_error todo' 0).
    2:{ rewrite nth_error_app2 by lia.
        replace (S (length done) - length done) with 1 by lia.
        reflexivity. }
    destruct todo' as [| next rest]; [reflexivity |].
    cbn [nth_error bind].
    destruct (contains "[ bonds ]" next); [reflexivity |].
    destruct (if start then select line d else Ok d) as [d' | e];
      [| reflexivity].
    cbn [bind]. rewrite getitem_lookback. cbn [bind].
    specialize (IH (done ++ [line])%list (start || contains "[ atoms ]"
                      (lookback done (line :: next :: rest)))%bool d').
    rewrite <- app_assoc, length_app in IH. cbn [app length] in IH.
    rewrite Nat.add_1_r in IH. rewrite IH.
    now rewrite lookback_snoc.
Qed.

(** The selector is the subscript-free loop started on the whole file, the
    first lookback being the file's last line. *)
Lemma get_dict_selections_scan_from (lines : list string) :
  get_dict_selections lines = scan_from (last lines "") lines false [].
Proof.
  unfold get_dict_selections.
  apply (scan_scan_from lines [] false []).
Qed.

(** ** Which lines are parsed *)

Lemma started_S (lines : list string) (i : nat) :
  started lines (S i) =
  (started lines i ||
   match getitem lines (Z.of_nat i - 1) with
   | Ok prev => contains "[ atoms ]" prev
   | Raise _ => false
   end)%bool.
Proof.
  unfold started. rewrite seq_S, existsb_app. cbn [existsb Nat.add].
  now rewrite orb_false_r.
Qed.

Lemma passes_0 (lines : list string) :
  passes lines 0 =
  match getitem lines (Z.of_nat 0 + 1) with
  | Ok next => negb (contains "[ bonds ]" next)
  | Raise _ => false
  end.
Proof.
  unfold passes. cbn [seq forallb]. now rewrite andb_true_r.
Qed.

Lemma passes_S (lines : list string) (i : nat) :
  passes lines (S i) =
  (passes lines i &&
   match getitem lines (Z.of_nat (S i) + 1) with
   | Ok next => negb (contains "[ bonds ]" next)
   | Raise _ => false
   end)%bool.
Proof.
  unfold passes. rewrite (seq_S (S i) 0), forallb_app.
  cbn [forallb Nat.add]. now rewrite andb_true_r.
Qed.

(** Once the loop has stopped, it has stopped. *)
Lemma passes_mono (lines : list string) (i j : nat) :
  i <= j -> passes lines j = true -> passes lines i = true.
Proof.
  induction 1 as [| j Hle IH]; [trivial |].
  rewrite passes_S. intros H. apply andb_prop in H. tauto.
Qed.

Lemma filter_inactive (lines todo : list string) (i n : nat) :
  (forall j, i <= j -> active lines j = false) ->
  filter (fun p => active lines (fst p)) (combine (seq i n) todo) = [].
Proof.
  revert i n.
  induction todo as [| line todo' IH]; intros i n H.
  - now destruct (seq i n).
  - destruct n as [| n]; [reflexivity |].
    cbn [seq combine filter fst]. rewrite (H i) by lia.
    apply IH. intros j Hj. apply H. lia.
Qed.

Lemma scan_parsed (todo done : list string) (start : bool) (d : dict) :
  let lines := (done ++ todo)%list in
  let i := length done in
  start = started lines i ->
  (i = 0 \/ passes lines (i - 1) = true) ->
  existsb (contains "[ bonds ]") (tl todo) = true ->
  scan lines i todo start d =
  select_all
    (map snd (filter (fun p => active lines (fst p))
                (combine (seq i (length todo)) todo))) d.
Proof.
  revert done start d.
  induction todo as [| line todo' IH]; intros done start d lines i Hs Hp Hb.
  - discriminate.
  - destruct todo' as [| next rest]; [discriminate |].
    cbn [tl existsb] in Hb.
    assert (Hnext : getitem lines (Z.of_nat i + 1) = Ok next).
    { rewrite getitem_succ. subst lines i.
      rewrite nth_error_app2 by lia.
      replace (S (length done) - length done) with 1 by lia.
      reflexivity. }
    assert (Hstep : passes lines i = negb (contains "[ bonds ]" next)).
    { destruct i as [| i'] eqn:Ei.
      - rewrite passes_0, Hnext. reflexivity.
      - rewrite passes_S, Hnext.
        destruct Hp as [Hp | Hp]; [discriminate |].
        replace (S i' - 1) with i' in Hp by lia. now rewrite Hp. }
    cbn [scan]. fold lines i. rewrite Hnext. cbn [bind].
    destruct (contains "[ bonds ]" next) eqn:Hbn.
    + rewrite filter_inactive; [reflexivity |].
      intros j Hj. unfold active.
      destruct (passes lines j) eqn:Hpj; [| apply andb_false_r].
      apply (passes_mono lines i j Hj) in Hpj. cbn [negb] in Hstep. congruence.
    + cbn [negb] in Hstep. cbn [orb] in Hb.
      cbn [length seq combine filter fst].
      unfold active at 1. rewrite Hstep, andb_true_r, <- Hs.
      pose proof (getitem_lookback done (next :: rest) line) as Hprev.
      fold lines i in Hprev.
      assert (Hs' : (start || contains "[ atoms ]"
                       (lookback done (line :: next :: rest)))%bool
                    = started lines (S i)).
      { rewrite started_S, Hprev, <- Hs. reflexivity. }
      specialize (IH (done ++ [line])%list
                    (start || contains "[ atoms ]"
                       (lookback done (line :: next :: rest)))%bool).
      cbn zeta in IH.
      rewrite <- app_assoc, length_app in IH. cbn [app length] in IH.
      rewrite Nat.add_1_r in IH. fold lines i in IH.
      assert (Hp' : S i = 0 \/ passes lines (S i - 1) = true).
      { right. now replace (S i - 1) with i by lia. }
      destruct start.
      * cbn [map snd select_all].
        destruct (select line d) as [d' | e]; [| reflexivity].
        cbn [bind]. rewrite Hprev. cbn [bind].
        apply IH; auto.
      * cbn [bind]. rewrite Hprev. cbn [bind].
        apply IH; auto.
Qed.

(** When some line after the first holds the [[ bonds ]] marker, the
    selector is [select] run over the active lines. *)
Lemma get_dict_selections_parsed (lines : list string) :
  existsb (contains "[ bonds ]") (tl lines) = true ->
  get_dict_selections lines = select_all (parsed lines) [].
Proof.
  intros Hb. unfold get_dict_selections, parsed.
  exact (scan_parsed lines [] false [] eq_refl (or_introl eq_refl) Hb).
Qed.

(** ** Dictionaries *)

Lemma dict_get_set_same (k v : string) (d : dict) :
  dict_get (dict_set k v d) k = Some v.
Proof.
  induction d as [| [k' v'] d IH]; cbn [dict_set dict_get].
  - now rewrite String.eqb_refl.
  - destruct (k' =? k) eqn:E; cbn [dict_get]; rewrite E; auto.
Qed.

Lemma dict_get_set_other (k k' v : string) (d : dict) :
  k' <> k -> dict_get (dict_set k v d) k' = dict_get d k'.
Proof.
  intros Hk.
  induction d as [| [k0 v0] d IH]; cbn [dict_set dict_get].
  - destruct (String.eqb_spec k k'); congruence.
  - destruct (String.eqb_spec k0 k) as [-> | Hne]; cbn [dict_get].
    + destruct (String.eqb_spec k k'); congruence.
    + now rewrite IH.
Qed.

(** ** One line through [select] *)

(** The only exception [select] raises is [IndexError]. *)
Lemma select_IndexError (line : string) (d : dict) (e : exn) :
  select line d = Raise e -> e = IndexError.
Proof.
  unfold select.
  destruct (getitem (split line) 3) as [resname | e3] eqn:E3; cbn [bind].
  2:{ intros [= <-]. eauto using getitem_IndexError. }
  destruct (any _ idoa_names); [| discriminate].
  destruct (getitem (split line) 4) as [name | e4] eqn:E4; cbn [bind].
  2:{ intros [= <-]. eauto using getitem_IndexError. }
  destruct (any _ atom_names); [| discriminate].
  destruct (getitem (split line) 2) as [resid | e2] eqn:E2; cbn [bind].
  2:{ intros [= <-]. eauto using getitem_IndexError. }
  destruct (getitem (split line) 0) as [index | e0] eqn:E0; cbn [bind].
  2:{ intros [= <-]. eauto using getitem_IndexError. }
  discriminate.
Qed.

(** [select] either leaves the dictionary alone or stores one entry, and
    which of the two does not depend on the dictionary. *)
Lemma select_entry (line : string) (d d' : dict) :
  select line d = Ok d' ->
  d' = match entry line with
       | Some (k, v) => dict_set k v d
       | None => d
       end.
Proof.
  unfold entry, select.
  destruct (getitem (split line) 3) as [resname | e3]; cbn [bind];
    [| discriminate].
  destruct (any _ idoa_names); [| now intros [= <-]].
  destruct (getitem (split line) 4) as [name | e4]; cbn [bind];
    [| discriminate].
  destruct (any _ atom_names); [| now intros [= <-]].
  destruct (getitem (split line) 2) as [resid | e2]; cbn [bind];
    [| discriminate].
  destruct (getitem (split line) 0) as [index | e0]; cbn [bind];
    [| discriminate].
  now intros [= <-].
Qed.

(** An entry is keyed by fields 4 and 2 and holds field 0. *)
Lemma entry_fields (line k v : string) :
  entry line = Some (k, v) ->
  exists name resid,
    getitem (split line) 4 = Ok name /\
    getitem (split line) 2 = Ok resid /\
    getitem (split line) 0 = Ok v /\
    k = name ++ "_" ++ resid.
Proof.
  unfold entry, select.
  destruct (getitem (split line) 3) as [resname | e3]; cbn [bind];
    [| discriminate].
  destruct (any _ idoa_names); [| discriminate].
  destruct (getitem (split line) 4) as [name | e4]; cbn [bind];
    [| discriminate].
  destruct (any _ atom_names); [| discriminate].
  destruct (getitem (split line) 2) as [resid | e2]; cbn [bind];
    [| discriminate].
  destruct (getitem (split line) 0) as [index | e0]; cbn [bind];
    [| discriminate].
  cbn [dict_set]. intros [= <- <-]. eauto 6.
Qed.

(** ** Several lines through [select] *)

Lemma select_all_IndexError (ls : list string) (d : dict) (e : exn) :
  select_all ls d = Raise e -> e = IndexError.
Proof.
  revert d. induction ls as [| line ls IH]; intros d; [discriminate |].
  cbn [select_all].
  destruct (select line d) as [d' | e'] eqn:E; cbn [bind].
  - apply IH.
  - intros [= <-]. eauto using select_IndexError.
Qed.

(** After the lines [ls], [d[k]] is what the last line with an entry for
    [k] stored, or what was there before when no line has one. *)
Lemma select_all_last (k : string) (ls : list string) (d0 d : dict) :
  select_all ls d0 = Ok d ->
  forall v,
    dict_get d k = Some v <->
    (exists before line after,
        ls = (before ++ line :: after)%list /\
        entry line = Some (k, v) /\
        Forall (silent_on k) after)
    \/ (dict_get d0 k = Some v /\ Forall (silent_on k) ls).
Proof.
  revert d0. induction ls as [| line ls IH]; intros d0 H v.
  - injection H as <-. split.
    + intros Hg. right. auto.
    + intros [(before & line & after & E & _) | [Hg _]]; [| trivial].
      now destruct before.
  - cbn [select_all] in H.
    destruct (select line d0) as [d1 | e] eqn:E; [| discriminate].
    cbn [bind] in H. rewrite (IH d1 H v).
    pose proof (select_entry line d0 d1 E) as Hd1.
    assert (Hdec : (exists v0, entry line = Some (k, v0)) \/ silent_on k line).
    { unfold silent_on.
      destruct (entry line) as [[k0 v0] |] eqn:Ee.
      - destruct (String.eqb_spec k0 k) as [-> | Hne]; [eauto |].
        right. intros v1 [= ? ?]. congruence.
      - right. intros v1. discriminate. }
    split.
    + intros [(before & l & after & -> & He & Hs) | [Hg Hs]].
      * left. exists (line :: before), l, after. auto.
      * destruct Hdec as [[v0 Hv0] | Hsil].
        -- left. exists [], line, ls. rewrite Hv0 in Hd1. subst d1.
           rewrite dict_get_set_same in Hg. injection Hg as ->. auto.
        -- right. split; [| now constructor].
           rewrite <- Hg. subst d1.
           destruct (entry line) as [[k0 v0] |] eqn:Ee; [| reflexivity].
           symmetry. apply dict_get_set_other.
           intros ->. now apply (Hsil v0).
    + intros [(before & l & after & Els & He & Hs) | [Hg Hs]].
      * destruct before as [| b before]; cbn [app] in Els;
          injection Els as <- ->.
        -- right. rewrite He in Hd1. subst d1.
           now rewrite dict_get_set_same.
        -- left. eauto 6.
      * inversion Hs as [| ? ? Hline Hrest]; subst. right. split; [| trivial].
        rewrite <- Hg.
        destruct (entry line) as [[k0 v0] |] eqn:Ee; [| reflexivity].
        apply dict_get_set_other. intros ->. now apply (Hline v0).
Qed.

(** ** Substrings *)

Lemma prefix_spec (a s : string) :
  prefix a s = true <-> exists post, s = a ++ post.
Proof.
  revert s. induction a as [| c a IH]; intros s.
  - destruct s as [| c s]; cbn [prefix]; (split; [intros _ | reflexivity]).
    + now exists "".
    + now exists (String c s).
  - destruct s as [| c' s]; cbn [prefix].
    + split; [discriminate | intros [post H]; discriminate].
    + destruct (ascii_dec c c') as [-> | Hne].
      * rewrite IH. split; intros [post H]; exists post.
        -- cbn [append]. now rewrite H.
        -- cbn [append] in H. now injection H.
      * split; [discriminate |].
        intros [post H]. cbn [append] in H. injection H as H _. congruence.
Qed.

Lemma contains_spec (sub s : string) :
  contains sub s = true <-> is_substring sub s.
Proof.
  unfold is_substring.
  induction s as [| c s IH]; cbn [contains].
  - rewrite orb_false_r, prefix_spec. split.
    + intros [post H]. now exists "", post.
    + intros (pre & post & H). exists post.
      destruct pre; [exact H | discriminate].
  - rewrite orb_true_iff, prefix_spec, IH. split.
    + intros [[post H] | (pre & post & H)].
      * now exists "", post.
      * exists (String c pre), post. cbn [append]. now rewrite H.
    + intros (pre & post & H). destruct pre as [| c' pre].
      * left. now exists post.
      * right. cbn [append] in H. injection H as _ H. eauto.
Qed.

Lemma not_contains_spec (sub s : string) :
  contains sub s = false <-> ~ is_substring sub s.
Proof.
  rewrite <- contains_spec. destruct (contains sub s); split; congruence.
Qed.

(** ** When the loop raises *)

(** Without a [[ bonds ]] marker after the first line the lookahead runs
    off the end of the file, unless a line fails earlier. *)
Lemma scan_from_no_bonds (todo : list string) (prev : string) (start : bool)
    (d : dict) :
  todo <> [] ->
  existsb (contains "[ bonds ]") (tl todo) = false ->
  scan_from prev todo start d = Raise IndexError.
Proof.
  revert prev start d.
  induction todo as [| line todo' IH]; intros prev start d Hne Hb;
    [congruence |].
  destruct todo' as [| next rest]; [reflexivity |].
  cbn [tl existsb] in Hb. apply orb_false_elim in Hb as [Hn Hrest].
  cbn [scan_from]. rewrite Hn.
  destruct (if start then select line d else Ok d) as [d' | e] eqn:E;
    cbn [bind].
  - apply IH; [discriminate | exact Hrest].
  - destruct start; [| discriminate].
    now rewrite (select_IndexError line d e E).
Qed.

(** The selector raises nothing but [IndexError]. *)
Lemma get_dict_selections_IndexError (lines : list string) (e : exn) :
  get_dict_selections lines = Raise e -> e = IndexError.
Proof.
  destruct (existsb (contains "[ bonds ]") (tl lines)) eqn:Hb.
  - rewrite get_dict_selections_parsed by exact Hb.
    apply select_all_IndexError.
  - destruct lines as [| l0 lines]; [discriminate |].
    rewrite get_dict_selections_scan_from, scan_from_no_bonds;
      congruence.
Qed.

(** A dictionary that is returned was built from the active lines. *)
Lemma get_dict_selections_Ok (lines : list string) (d : dict) :
  get_dict_selections lines = Ok d ->
  select_all (parsed lines) [] = Ok d.
Proof.
  intros H.
  destruct (existsb (contains "[ bonds ]") (tl lines)) eqn:Hb.
  - now rewrite <- get_dict_selections_parsed.
  - destruct lines as [| l0 lines]; [exact H |].
    rewrite get_dict_selections_scan_from, scan_from_no_bonds in H;
      congruence.
Qed.

(** ** Where parsing starts *)

(** Two lines after a marker, [start] is set. *)
Lemma started_after_marker (lines : list string) (m i : nat)
    (marker : string) :
  nth_error lines m = Some marker ->
  contains "[ atoms ]" marker = true ->
  m + 2 <= i ->
  started lines i = true.
Proof.
  intros Hm Ha Hi. unfold started. apply existsb_exists.
  exists (S m). split.
  - apply in_seq. lia.
  - now rewrite getitem_pred, Hm.
Qed.

(** Up to the line after the first marker, [start] is not set, provided
    the last line of the file, which is [lines[-1]], holds no marker. *)
Lemma started_before_marker (lines : list string) (m i : nat) :
  (forall j l, j < m -> nth_error lines j = Some l ->
               contains "[ atoms ]" l = false) ->
  contains "[ atoms ]" (last lines "") = false ->
  i < m + 2 ->
  started lines i = false.
Proof.
  intros Hfirst Hlast Hi. unfold started.
  destruct (existsb _ (seq 0 i)) eqn:E; [| reflexivity].
  apply existsb_exists in E as (j & Hj & Hf).
  apply in_seq in Hj.
  destruct j as [| j].
  - change (Z.of_nat 0 - 1)%Z with (-1)%Z in Hf.
    destruct lines as [| l0 lines]; [discriminate |].
    destruct (exists_last (l := l0 :: lines) ltac:(discriminate))
      as (front & z & Ez).
    rewrite Ez, getitem_last in Hf. rewrite Ez, last_last in Hlast.
    congruence.
  - rewrite getitem_pred in Hf.
    destruct (nth_error lines j) as [l |] eqn:El; [| discriminate].
    rewrite (Hfirst j l) in Hf; [discriminate | lia | exact El].
Qed.

(** ** Lines that [select] accepts *)

Lemma entry_select (line k v : string) (d : dict) :
  entry line = Some (k, v) -> select line d = Ok (dict_set k v d).
Proof.
  unfold entry, select.
  destruct (getitem (split line) 3) as [resname | e3]; cbn [bind];
    [| discriminate].
  destruct (any _ idoa_names); [| discriminate].
  destruct (getitem (split line) 4) as [name | e4]; cbn [bind];
    [| discriminate].
  destruct (any _ atom_names); [| discriminate].
  destruct (getitem (split line) 2) as [resid | e2]; cbn [bind];
    [| discriminate].
  destruct (getitem (split line) 0) as [index | e0]; cbn [bind];
    [| discriminate].
  cbn [dict_set]. now intros [= <- <-].
Qed.

Lemma select_Ok_iff (line : string) (d : dict) :
  (exists d', select line d = Ok d') <-> well_formed line = true.
Proof.
  unfold select, well_formed.
  change 3%Z with (Z.of_nat 3). change 4%Z with (Z.of_nat 4).
  change 2%Z with (Z.of_nat 2). change 0%Z with (Z.of_nat 0).
  rewrite !getitem_nat.
  destruct (nth_error (split line) 3) as [resname |] eqn:E3; cbn [bind].
  2:{ split; [intros [d' H] |]; discriminate. }
  destruct (any _ idoa_names); [| split; eauto].
  destruct (nth_error (split line) 4) as [name |] eqn:E4; cbn [bind].
  - assert (Hlen : 4 < length (split line))
      by (apply nth_error_Some; congruence).
    destruct (nth_error (split line) 2) as [resid |] eqn:E2.
    2:{ apply nth_error_None in E2. lia. }
    destruct (nth_error (split line) 0) as [index |] eqn:E0.
    2:{ apply nth_error_None in E0. lia. }
    cbn [bind].
    split; [intros _; apply Nat.leb_le; lia |].
    intros _. destruct (any _ atom_names); eauto.
  - apply nth_error_None in E4.
    split; [intros [d' H]; discriminate |].
    intros H. apply Nat.leb_le in H. lia.
Qed.

Lemma select_all_Ok_iff (ls : list string) (d : dict) :
  (exists d', select_all ls d = Ok d') <->
  Forall (fun line => well_formed line = true) ls.
Proof.
  revert d. induction ls as [| line ls IH]; intros d; cbn [select_all].
  - split; eauto.
  - split.
    + intros [d' H].
      destruct (select line d) as [d1 | e] eqn:E; [| discriminate].
      cbn [bind] in H. constructor.
      * apply (select_Ok_iff line d). eauto.
      * apply (IH d1). eauto.
    + intros H. inversion H as [| ? ? Hline Hrest]; subst.
      apply (select_Ok_iff line d) in Hline as [d1 E].
      rewrite E. cbn [bind]. now apply IH.
Qed.

Lemma well_formed_short (line : string) :
  length (split line) < 4 -> well_formed line = false.
Proof.
  intros H. unfold well_formed.
  assert (E : nth_error (split line) 3 = None)
    by (apply nth_error_None; lia).
  now rewrite E.
Qed.

Lemma well_formed_five (line : string) :
  5 <= length (split line) -> well_formed line = true.
Proof.
  intros H. unfold well_formed.
  destruct (nth_error (split line) 3) eqn:E.
  - destruct (any _ idoa_names); [| reflexivity]. apply Nat.leb_le. lia.
  - apply nth_error_None in E. lia.
Qed.

(** * The selector: claims *)

(** C1, as stated, fails: in [headers_only_file] the record that directly
    follows the [[ atoms ]] header passes both filters, yet it is not an
    active line and the returned dictionary has no entry for it. *)
Lemma record_after_header_not_parsed :
  nth_error headers_only_file 0 = Some (ln "[ atoms ]") /\
  nth_error headers_only_file 1 = Some (ln "10 x 5 AIDOA C1") /\
  entry (ln "10 x 5 AIDOA C1") = Some ("C1_5", "10") /\
  active headers_only_file 1 = false /\
  get_dict_selections headers_only_file = Ok [("O5_5", "11")] /\
  dict_get [("O5_5", "11")] "C1_5" = None.
Proof.
  repeat split; vm_compute; reflexivity.
Qed.

(** C1 (amended): in a file whose line [m] holds the [[ atoms ]] marker,
    every line from index [m + 2] on is active until the stop condition
    ([passes]); when [m] is the first marker and the last line of the file
    holds none, no line up to and including the one directly after the
    marker is active; and once the stop marker is found the dictionary is
    built from exactly the active lines. *)
Theorem parsing_starts_two_lines_after_atoms (lines : list string) (m : nat)
    (marker : string) :
  nth_error lines m = Some marker ->
  contains "[ atoms ]" marker = true ->
  (forall i, m + 2 <= i -> active lines i = passes lines i)
  /\ ((forall j l, j < m -> nth_error lines j = Some l ->
                   contains "[ atoms ]" l = false) ->
      contains "[ atoms ]" (last lines "") = false ->
      forall i, i <= m + 1 -> active lines i = false)
  /\ (existsb (contains "[ bonds ]") (tl lines) = true ->
      get_dict_selections lines = select_all (parsed lines) []).
Proof.
  intros Hm Ha. repeat split.
  - intros i Hi. unfold active.
    now rewrite (started_after_marker lines m i marker Hm Ha Hi).
  - intros Hfirst Hlast i Hi. unfold active.
    rewrite (started_before_marker lines m i Hfirst Hlast) by lia.
    reflexivity.
  - apply get_dict_selections_parsed.
Qed.

Lemma parsing_starts_two_lines_after_atoms_witness :
  active short_record_file 1 = false /\
  active short_record_file 2 = true /\
  get_dict_selections short_record_file
  = select_all (parsed short_record_file) [].
Proof.
  destruct (parsing_starts_two_lines_after_atoms short_record_file 0
              (ln "[ atoms ]") eq_refl eq_refl) as (Hon & Hoff & Hsel).
  split; [| split].
  - apply Hoff; [| reflexivity | lia].
    intros j l Hj. lia.
  - rewrite (Hon 2) by lia. reflexivity.
  - apply Hsel. reflexivity.
Defined.

(** C6: on a non-empty file none of whose lines holds the [[ bonds ]]
    marker the selector returns no dictionary but raises [IndexError];
    whatever the state, the iteration on the last line raises it in the
    lookahead [lines[i+1]]. *)
Theorem missing_bonds_marker_raises (lines : list string) :
  lines <> [] ->
  (forall line, In line lines -> contains "[ bonds ]" line = false) ->
  get_dict_selections lines = Raise IndexError
  /\ forall line start d,
       scan lines (length lines - 1) [line] start d = Raise IndexError.
Proof.
  intros Hne Hnone. split.
  - rewrite get_dict_selections_scan_from.
    apply scan_from_no_bonds; [exact Hne |].
    destruct (existsb _ (tl lines)) eqn:E; [| reflexivity].
    apply existsb_exists in E as (l & Hin & Hl).
    rewrite Hnone in Hl; [discriminate |].
    destruct lines; [contradiction | now right].
  - intros line start d. cbn [scan].
    rewrite getitem_succ.
    assert (E : nth_error lines (S (length lines - 1)) = None).
    { apply nth_error_None. lia. }
    now rewrite E.
Qed.

Lemma missing_bonds_marker_raises_witness :
  get_dict_selections unterminated_file = Raise IndexError
  /\ forall line start d,
       scan unterminated_file (length unterminated_file - 1) [line] start d
       = Raise IndexError.
Proof.
  apply missing_bonds_marker_raises.
  - discriminate.
  - intros line [<- | [<- | [<- | [<- | []]]]]; reflexivity.
Defined.

(** C8: storing under a key that is already present raises nothing and
    replaces the value; hence, in the dictionary returned for a file, the
    value under a key is field 0 of the last active line that has an entry
    for that key, and every key some active line has an entry for is
    present. *)
Theorem duplicate_key_keeps_last_index (lines : list string) (d : dict) :
  get_dict_selections lines = Ok d ->
  (forall line k v d0,
      entry line = Some (k, v) ->
      select line d0 = Ok (dict_set k v d0) /\
      dict_get (dict_set k v d0) k = Some v)
  /\ forall k v,
       dict_get d k = Some v <->
       exists before line after,
         parsed lines = (before ++ line :: after)%list /\
         entry line = Some (k, v) /\
         getitem (split line) 0 = Ok v /\
         Forall (silent_on k) after.
Proof.
  intros H. split.
  - intros line k v d0 He. split.
    + now apply entry_select.
    + apply dict_get_set_same.
  - intros k v. apply get_dict_selections_Ok in H.
    rewrite (select_all_last k (parsed lines) [] d H v). split.
    + intros [(before & line & after & E & He & Hs) | [Hg _]];
        [| discriminate].
      exists before, line, after. repeat split; auto.
      apply entry_fields in He as (name & resid & _ & _ & H0 & _).
      exact H0.
    + intros (before & line & after & E & He & _ & Hs).
      left. eauto 6.
Qed.

Lemma duplicate_key_keeps_last_index_witness :
  dict_get [("C1_5", "99"); ("O5_5", "11")] "C1_5" = Some "99" <->
  exists before line after,
    parsed duplicate_file = (before ++ line :: after)%list /\
    entry line = Some ("C1_5", "99") /\
    getitem (split line) 0 = Ok "99" /\
    Forall (silent_on "C1_5") after.
Proof.
  exact (proj2 (duplicate_key_keeps_last_index duplicate_file
                  [("C1_5", "99"); ("O5_5", "11")] eq_refl)
           "C1_5" "99").
Defined.

(** C10, as stated, fails: line 3 of [short_record_file] is active and has
    four fields, and the selector returns a dictionary. *)
Lemma four_field_line_accepted :
  nth_error short_record_file 3 = Some (ln "20 y 6 GLC") /\
  active short_record_file 3 = true /\
  length (split (ln "20 y 6 GLC")) = 4 /\
  get_dict_selections short_record_file
  = Ok [("C1_5", "10"); ("O5_5", "11")].
Proof.
  repeat split; vm_compute; reflexivity.
Qed.

(** C10 (amended): field 3 of an active line is read unconditionally and
    field 4 when field 3 holds one of the IdoA names ([well_formed]).  An
    active line with fewer than four fields, or with four fields and an
    IdoA residue type, makes the selector raise [IndexError]; the selector
    returns a dictionary exactly when the file is empty, or the stop marker
    is found and every active line is well formed, for which five fields
    are enough. *)
Theorem short_active_line_raises (lines : list string) :
  (forall line, In line (parsed lines) -> length (split line) < 4 ->
                get_dict_selections lines = Raise IndexError)
  /\ (forall line, In line (parsed lines) -> well_formed line = false ->
                   get_dict_selections lines = Raise IndexError)
  /\ ((exists d, get_dict_selections lines = Ok d) <->
      lines = [] \/
      (existsb (contains "[ bonds ]") (tl lines) = true /\
       Forall (fun line => well_formed line = true) (parsed lines)))
  /\ (forall line, 5 <= length (split line) -> well_formed line = true).
Proof.
  assert (Hbad : forall line, In line (parsed lines) ->
                   well_formed line = false ->
                   get_dict_selections lines = Raise IndexError).
  { intros line Hin Hwf.
    destruct (get_dict_selections lines) as [d | e] eqn:E.
    - apply get_dict_selections_Ok in E.
      assert (Hall : Forall (fun l => well_formed l = true) (parsed lines))
        by (apply (select_all_Ok_iff (parsed lines) []); eauto).
      rewrite Forall_forall in Hall. rewrite (Hall line Hin) in Hwf.
      discriminate.
    - now rewrite (get_dict_selections_IndexError lines e E). }
  split; [| split; [exact Hbad | split; [| exact well_formed_five]]].
  - intros line Hin Hlen. apply (Hbad line Hin).
    now apply well_formed_short.
  - split.
    + intros [d E].
      destruct lines as [| l0 lines']; [now left | right].
      destruct (existsb _ (tl (l0 :: lines'))) eqn:Hb.
      * split; [reflexivity |].
        apply get_dict_selections_Ok in E.
        apply (select_all_Ok_iff (parsed (l0 :: lines')) []). eauto.
      * rewrite get_dict_selections_scan_from, scan_from_no_bonds in E;
          congruence.
    + intros [-> | [Hb Hall]].
      * now exists [].
      * rewrite (get_dict_selections_parsed lines Hb).
        now apply select_all_Ok_iff.
Qed.

Lemma short_active_line_raises_witness :
  get_dict_selections
    [ln "[ atoms ]"; ln "; nr"; ln "10 x 5 AIDOA C1"; nl;
     ln "11 x 5 AIDOA O5"; nl; ln "[ bonds ]"]
  = Raise IndexError.
Proof.
  apply (proj1 (short_active_line_raises _) nl).
  - vm_compute. auto.
  - vm_compute. lia.
Defined.

(** C3: both filters are substring tests.  On a line with fields
    [index _ resid resname name ...], when [resname] has ["YuA"] or
    ["AIDOA"] as a substring and [name] has one of the six ring-atom names
    as a substring, the entry [name_resid -> index] is stored; when
    [resname] has neither as a substring the dictionary is unchanged. *)
Theorem filters_are_substring_tests (line : string) (d : dict)
    (index unused resid resname name : string) (rest : list string) :
  split line = index :: unused :: resid :: resname :: name :: rest ->
  ((is_substring "YuA" resname \/ is_substring "AIDOA" resname) ->
   (exists atom, In atom ["C1"; "O5"; "C5"; "C4"; "C3"; "C2"] /\
                 is_substring atom name) ->
   select line d = Ok (dict_set (name ++ "_" ++ resid) index d))
  /\ (~ is_substring "YuA" resname -> ~ is_substring "AIDOA" resname ->
      select line d = Ok d).
Proof.
  intros Hs. unfold select. rewrite Hs.
  change 3%Z with (Z.of_nat 3). change 4%Z with (Z.of_nat 4).
  change 2%Z with (Z.of_nat 2). change 0%Z with (Z.of_nat 0).
  rewrite !getitem_nat. cbn [nth_error bind]. split.
  - intros Hres (atom & Hin & Hatom).
    assert (E1 : any (fun idoa => contains idoa resname) idoa_names = true).
    { apply existsb_exists.
      destruct Hres as [H | H]; [exists "YuA" | exists "AIDOA"];
        (split; [cbn; tauto | now apply contains_spec]). }
    assert (E2 : any (fun a => contains a name) atom_names = true).
    { apply existsb_exists. exists atom. split; [| now apply contains_spec].
      cbn in Hin |- *. tauto. }
    now rewrite E1, E2.
  - intros H1 H2. apply not_contains_spec in H1, H2.
    cbn [any existsb idoa_names]. now rewrite H1, H2.
Qed.

Lemma filters_are_substring_tests_witness :
  select (ln "10 x 5 AIDOA C11") [] = Ok [("C11_5", "10")] /\
  select (ln "10 x 5 xYuAx C1") [] = Ok [("C1_5", "10")] /\
  select (ln "10 x 5 GLC C1") [] = Ok [].
Proof.
  split; [| split].
  - apply (proj1 (filters_are_substring_tests (ln "10 x 5 AIDOA C11") []
                    "10" "x" "5" "AIDOA" "C11" [] eq_refl)).
    + right. now exists "", "".
    + exists "C1". split; [cbn; tauto | now exists "", "1"].
  - apply (proj1 (filters_are_substring_tests (ln "10 x 5 xYuAx C1") []
                    "10" "x" "5" "xYuAx" "C1" [] eq_refl)).
    + left. now exists "x", "x".
    + exists "C1". split; [cbn; tauto | now exists "", ""].
  - apply (proj2 (filters_are_substring_tests (ln "10 x 5 GLC C1") []
                    "10" "x" "5" "GLC" "C1" [] eq_refl));
      apply not_contains_spec; reflexivity.
Defined.

(** * The formatter *)

(** ** Joining strings *)

Lemma append_nil_r (s : string) : s ++ "" = s.
Proof.
  induction s as [| c s IH]; cbn [append]; congruence.
Qed.

Lemma append_assoc (a b c : string) : (a ++ b) ++ c = a ++ b ++ c.
Proof.
  induction a as [| x a IH]; cbn [append]; congruence.
Qed.

Lemma concat_empty_cons (x : string) (xs : list string) :
  String.concat "" (x :: xs) = x ++ String.concat "" xs.
Proof.
  destruct xs as [| y xs]; cbn [String.concat].
  - now rewrite append_nil_r.
  - reflexivity.
Qed.

Lemma concat_empty_app (xs ys : list string) :
  String.concat "" (xs ++ ys) = String.concat "" xs ++ String.concat "" ys.
Proof.
  induction xs as [| x xs IH].
  - reflexivity.
  - cbn [app]. now rewrite !concat_empty_cons, IH, append_assoc.
Qed.

(** ** The lookups for one residue *)

(** With its six keys present, a residue yields its six lines. *)
Lemma ring_atoms_present (d : dict) (r : string) :
  (forall a, In a ring_names -> dict_get d (a ++ "_" ++ r) <> None) ->
  exists c1 o5 c5 c4 c3 c2,
    ring_atoms d r = Ok (six_restraints c1 o5 c5 c4 c3 c2) /\
    dict_get d ("C1_" ++ r) = Some c1 /\
    dict_get d ("O5_" ++ r) = Some o5 /\
    dict_get d ("C5_" ++ r) = Some c5 /\
    dict_get d ("C4_" ++ r) = Some c4 /\
    dict_get d ("C3_" ++ r) = Some c3 /\
    dict_get d ("C2_" ++ r) = Some c2.
Proof.
  intros H. unfold ring_atoms, lookup.
  pose proof (H "C1" ltac:(cbn; tauto)) as H1.
  pose proof (H "O5" ltac:(cbn; tauto)) as H2.
  pose proof (H "C5" ltac:(cbn; tauto)) as H3.
  pose proof (H "C4" ltac:(cbn; tauto)) as H4.
  pose proof (H "C3" ltac:(cbn; tauto)) as H5.
  pose proof (H "C2" ltac:(cbn; tauto)) as H6.
  cbn [append] in H1, H2, H3, H4, H5, H6 |- *.
  destruct (dict_get d _) as [c1 |]; [| congruence].
  destruct (dict_get d _) as [o5 |]; [| congruence].
  destruct (dict_get d _) as [c5 |]; [| congruence].
  destruct (dict_get d _) as [c4 |]; [| congruence].
  destruct (dict_get d _) as [c3 |]; [| congruence].
  destruct (dict_get d _) as [c2 |]; [| congruence].
  exists c1, o5, c5, c4, c3, c2. cbn [bind]. repeat split.
Qed.

(** The exception of a residue is the [KeyError] of one of its six keys,
    absent from the dictionary. *)
Lemma ring_atoms_Raise (d : dict) (r : string) (e : exn) :
  ring_atoms d r = Raise e ->
  exists a, In a ring_names /\ e = KeyError (a ++ "_" ++ r) /\
            dict_get d (a ++ "_" ++ r) = None.
Proof.
  unfold ring_atoms, lookup.
  destruct (dict_get d ("C1_" ++ r)) eqn:E1; cbn [bind].
  2:{ intros [= <-]. exists "C1". cbn; tauto. }
  destruct (dict_get d ("O5_" ++ r)) eqn:E2; cbn [bind].
  2:{ intros [= <-]. exists "O5". cbn; tauto. }
  destruct (dict_get d ("C5_" ++ r)) eqn:E3; cbn [bind].
  2:{ intros [= <-]. exists "C5". cbn; tauto. }
  destruct (dict_get d ("C4_" ++ r)) eqn:E4; cbn [bind].
  2:{ intros [= <-]. exists "C4". cbn; tauto. }
  destruct (dict_get d ("C3_" ++ r)) eqn:E5; cbn [bind].
  2:{ intros [= <-]. exists "C3". cbn; tauto. }
  destruct (dict_get d ("C2_" ++ r)) eqn:E6; cbn [bind].
  2:{ intros [= <-]. exists "C2". cbn; tauto. }
  discriminate.
Qed.

Lemma ring_atoms_Ok_present (d : dict) (r : string) (b : list string) :
  ring_atoms d r = Ok b ->
  forall a, In a ring_names -> dict_get d (a ++ "_" ++ r) <> None.
Proof.
  unfold ring_atoms, lookup.
  destruct (dict_get d ("C1_" ++ r)) eqn:E1; cbn [bind]; [| discriminate].
  destruct (dict_get d ("O5_" ++ r)) eqn:E2; cbn [bind]; [| discriminate].
  destruct (dict_get d ("C5_" ++ r)) eqn:E3; cbn [bind]; [| discriminate].
  destruct (dict_get d ("C4_" ++ r)) eqn:E4; cbn [bind]; [| discriminate].
  destruct (dict_get d ("C3_" ++ r)) eqn:E5; cbn [bind]; [| discriminate].
  destruct (dict_get d ("C2_" ++ r)) eqn:E6; cbn [bind]; [| discriminate].
  intros _ a Ha. cbn in Ha.
  destruct Ha as [<- | [<- | [<- | [<- | [<- | [<- | []]]]]]];
    cbn [append] in *; congruence.
Qed.

(** ** The loop over the residues *)

Lemma restrain_Ok (d : dict) (rs : list string) (blocks : list (list string))
    (s : string) :
  Forall2 (fun r b => ring_atoms d r = Ok b) rs blocks ->
  restrain d rs s = Ok (s ++ String.concat "" (List.concat blocks)).
Proof.
  intros H. revert s.
  induction H as [| r b rs blocks Hr _ IH]; intros s; cbn [restrain].
  - cbn. now rewrite append_nil_r.
  - rewrite Hr. cbn [bind List.concat].
    now rewrite IH, concat_empty_app, append_assoc.
Qed.

(** Either every residue yields its lines, or the loop raises what the
    first failing residue raises. *)
Lemma restrain_cases (d : dict) (rs : list string) (s : string) :
  (exists blocks, Forall2 (fun r b => ring_atoms d r = Ok b) rs blocks)
  \/ (exists r e, In r rs /\ ring_atoms d r = Raise e /\
                  restrain d rs s = Raise e).
Proof.
  revert s. induction rs as [| r rs IH]; intros s.
  - left. exists []. constructor.
  - cbn [restrain].
    destruct (ring_atoms d r) as [b | e] eqn:E; cbn [bind].
    + destruct (IH (s ++ String.concat "" b))
        as [[blocks H] | (r' & e & Hin & Hr & Hres)].
      * left. exists (b :: blocks). now constructor.
      * right. exists r', e. cbn [In]. auto.
    + right. exists r, e. cbn [In]. auto.
Qed.

(** The text printed when every residue yields its lines. *)
Lemma format_restraint_Ok (d : dict) (rs : list string)
    (blocks : list (list string)) :
  resids_of d = Ok rs ->
  Forall2 (fun r b => ring_atoms d r = Ok b) rs blocks ->
  format_restraint d =
  Ok (print (opening ++ String.concat "" (List.concat blocks) ++ closing)).
Proof.
  intros Hrs Hb. unfold format_restraint. rewrite Hrs. cbn [bind].
  rewrite (restrain_Ok d rs blocks _ Hb). cbn [bind].
  change ("#ifdef PUCKER" ++ nl ++ "[ dihedral_restraints ]" ++ nl)
    with opening.
  change (("#ifdef PUCKER" ++ nl) ++ "[ dihedral_restraints ]" ++ nl)
    with opening.
  now rewrite append_assoc.
Qed.

Lemma Forall2_In_l {A B : Type} (P : A -> B -> Prop) (xs : list A)
    (ys : list B) (x : A) :
  Forall2 P xs ys -> In x xs -> exists y, In y ys /\ P x y.
Proof.
  induction 1 as [| x0 y0 xs ys Hxy _ IH]; cbn [In]; [contradiction |].
  intros [<- | Hin].
  - eauto.
  - destruct (IH Hin) as (y & Hy & Hp). eauto.
Qed.

(** * The formatter: claims *)

(** C5: let [rs] be the residue ids derived from the dictionary.  If one
    of the six keys of one of them is absent, the formatter prints nothing
    and raises [KeyError] on such an absent key; if none is absent, it
    raises nothing. *)
Theorem missing_key_aborts_run (d : dict) (rs : list string) :
  resids_of d = Ok rs ->
  ((exists r a, In r rs /\ In a ring_names /\
                dict_get d (a ++ "_" ++ r) = None) ->
   exists k, format_restraint d = Raise (KeyError k) /\
             dict_get d k = None /\
             exists r a, In r rs /\ In a ring_names /\ k = a ++ "_" ++ r)
  /\ ((forall r a, In r rs -> In a ring_names ->
                   dict_get d (a ++ "_" ++ r) <> None) ->
      exists out, format_restraint d = Ok out).
Proof.
  intros Hrs.
  pose proof (restrain_cases d rs opening) as Hcases.
  split.
  - intros (r & a & Hr & Ha & Hnone).
    destruct Hcases as [[blocks Hb] | (r' & e & Hin & Hraise & Hres)].
    + destruct (Forall2_In_l _ rs blocks r Hb Hr) as (b & _ & Hok).
      now destruct (ring_atoms_Ok_present d r b Hok a Ha).
    + destruct (ring_atoms_Raise d r' e Hraise) as (a' & Ha' & -> & Hk).
      exists (a' ++ "_" ++ r'). split; [| split; [exact Hk | eauto]].
      unfold format_restraint. rewrite Hrs. cbn [bind].
      change (("#ifdef PUCKER" ++ nl) ++ "[ dihedral_restraints ]" ++ nl)
        with opening.
      now rewrite Hres.
  - intros Hall.
    destruct Hcases as [[blocks Hb] | (r' & e & Hin & Hraise & _)].
    + eexists. exact (format_restraint_Ok d rs blocks Hrs Hb).
    + destruct (ring_atoms_Raise d r' e Hraise) as (a' & Ha' & _ & Hk).
      now destruct (Hall r' a' Hin Ha').
Qed.

Lemma missing_key_aborts_run_witness :
  (exists k, format_restraint missing_atom_dict = Raise (KeyError k) /\
             dict_get missing_atom_dict k = None /\
             exists r a, In r ["5"; "6"] /\ In a ring_names /\
                         k = a ++ "_" ++ r)
  /\ exists out, format_restraint two_residue_dict = Ok out.
Proof.
  split.
  - apply (proj1 (missing_key_aborts_run missing_atom_dict ["5"; "6"]
                    eq_refl)).
    exists "6", "C4". cbn. tauto.
  - apply (proj2 (missing_key_aborts_run two_residue_dict ["5"; "6"]
                    eq_refl)).
    intros r a [<- | [<- | []]] Ha; cbn in Ha;
      destruct Ha as [<- | [<- | [<- | [<- | [<- | [<- | []]]]]]];
      discriminate.
Defined.

(** C9: on the empty dictionary the formatter raises nothing and the
    text on standard output is the three lines [#ifdef PUCKER],
    [[ dihedral_restraints ]] and [#endif], each ended by a newline, with
    nothing between them; [no_match_file], which has no IdoA residue, is
    a file that gives the empty dictionary and this output. *)
Theorem empty_dict_prints_bare_block :
  format_restraint []
  = Ok ("#ifdef PUCKER" ++ nl ++
        "[ dihedral_restraints ]" ++ nl ++
        "#endif" ++ nl)
  /\ lines_of ("#ifdef PUCKER" ++ nl ++
               "[ dihedral_restraints ]" ++ nl ++
               "#endif")
     = ["#ifdef PUCKER"; "[ dihedral_restraints ]"; "#endif"]
  /\ get_dict_selections no_match_file = Ok []
  /\ main no_match_file
     = Ok ("#ifdef PUCKER" ++ nl ++
           "[ dihedral_restraints ]" ++ nl ++
           "#endif" ++ nl).
Proof.
  repeat split.
Qed.

(** * Residue ids *)

(** ** Splitting a key at underscores *)

Lemma has_char_app (c : ascii) (a b : string) :
  has_char c (a ++ b) = (has_char c a || has_char c b)%bool.
Proof.
  induction a as [| x a IH]; cbn [append has_char]; [reflexivity |].
  now rewrite IH, orb_assoc.
Qed.

(** The first field is the text before the first separator; further
    fields exist when there is a separator, and come from the text after
    it. *)
Lemma split_sep_from_spec (sep : ascii) (tok s : string) :
  split_sep_from sep tok s =
  (tok ++ before_first sep s)
    :: (if has_char sep s
        then split_sep_from sep "" (after_first sep s)
        else []).
Proof.
  revert tok. induction s as [| c s IH]; intros tok.
  - cbn. now rewrite append_nil_r.
  - cbn [split_sep_from before_first after_first has_char].
    destruct (Ascii.eqb c sep); cbn [orb].
    + now rewrite append_nil_r.
    + rewrite IH, append_assoc. reflexivity.
Qed.

(** [k.split('_')[1]] is the derived id, and raises when [k] has no
    underscore. *)
Lemma second_field (k : string) :
  getitem (split_sep "_" k) 1 =
  if has_char "_" k then Ok (derived_id k) else Raise IndexError.
Proof.
  unfold split_sep. rewrite split_sep_from_spec.
  change 1%Z with (Z.of_nat 1). rewrite getitem_nat.
  destruct (has_char "_" k); [| reflexivity].
  rewrite split_sep_from_spec. reflexivity.
Qed.

Lemma comprehension_Ok {A B : Type} (f : A -> result B) (g : A -> B)
    (l : list A) :
  (forall x, In x l -> f x = Ok (g x)) ->
  comprehension f l = Ok (map g l).
Proof.
  induction l as [| x l IH]; intros H; cbn [comprehension map].
  - reflexivity.
  - rewrite (H x) by now left. cbn [bind].
    rewrite IH by (intros y Hy; apply H; now right). reflexivity.
Qed.

(** ** The ordered set *)

Lemma fold_oset_add_cons (x : string) (l acc : list string) :
  fold_left oset_add l (x :: acc) =
  x :: fold_left oset_add (filter (fun y => negb (String.eqb y x)) l) acc.
Proof.
  revert acc. induction l as [| y l IH]; intros acc; [reflexivity |].
  cbn [fold_left filter]. unfold oset_add at 2. cbn [existsb].
  destruct (String.eqb y x) eqn:E; cbn [negb orb].
  - apply IH.
  - cbn [fold_left]. unfold oset_add at 3.
    destruct (existsb (String.eqb y) acc); apply IH.
Qed.

Lemma oset_first_occurrences_upto (n : nat) (l : list string) :
  length l <= n -> oset l = first_occurrences_upto n l.
Proof.
  revert l. induction n as [| n IH]; intros l Hl.
  - destruct l; [reflexivity | cbn in Hl; lia].
  - destruct l as [| x l]; [reflexivity |].
    cbn [first_occurrences_upto]. rewrite <- IH.
    + apply (fold_oset_add_cons x l []).
    + pose proof (filter_length_le (fun y => negb (String.eqb y x)) l).
      cbn [length] in Hl. lia.
Qed.

(** [OrderedSet] keeps each element at its first occurrence. *)
Lemma oset_first_occurrences (l : list string) :
  oset l = first_occurrences l.
Proof.
  now apply oset_first_occurrences_upto.
Qed.

Lemma first_occurrences_upto_In (n : nat) (l : list string) (x : string) :
  In x (first_occurrences_upto n l) -> In x l.
Proof.
  revert l. induction n as [| n IH]; intros l; [contradiction |].
  destruct l as [| y l]; [contradiction |].
  cbn [first_occurrences_upto In]. intros [-> | H]; [now left |].
  right. apply IH in H. apply filter_In in H. tauto.
Qed.

Lemma first_occurrences_upto_NoDup (n : nat) (l : list string) :
  NoDup (first_occurrences_upto n l).
Proof.
  revert l. induction n as [| n IH]; intros l; [constructor |].
  destruct l as [| y l]; [constructor |].
  cbn [first_occurrences_upto]. constructor; [| apply IH].
  intros H. apply first_occurrences_upto_In, filter_In in H.
  destruct H as [_ H]. now rewrite String.eqb_refl in H.
Qed.

Lemma oset_NoDup (l : list string) : NoDup (oset l).
Proof.
  rewrite oset_first_occurrences. apply first_occurrences_upto_NoDup.
Qed.

(** * The formatter: residue ids *)

(** C4: the code departs from the claim on a residue id that contains an
    underscore.  In [underscore_residue_file] residue [7_b] has its six
    ring atoms and the selector stores the six keys [C1_7_b] ... [C2_7_b];
    the text after the first underscore of each key is [7_b], but line 79
    derives the residue id [7], the formatter looks up [C1_7], and the
    program raises [KeyError] instead of printing the block. *)
Theorem residue_id_with_underscore_truncated :
  get_dict_selections underscore_residue_file = Ok underscore_residue_dict
  /\ map (after_first "_") (keys underscore_residue_dict)
     = ["7_b"; "7_b"; "7_b"; "7_b"; "7_b"; "7_b"]
  /\ resids_of underscore_residue_dict = Ok ["7"]
  /\ format_restraint underscore_residue_dict = Raise (KeyError "C1_7")
  /\ main underscore_residue_file = Raise (KeyError "C1_7").
Proof.
  repeat split.
Qed.

(** * The lines of the output *)

(** ** Values stored by the selector *)

(** A field returned by [split] holds no whitespace. *)
Lemma split_from_no_space (c : ascii) (s tok f : string) :
  isspace c = true ->
  has_char c tok = false ->
  In f (split_from tok s) ->
  has_char c f = false.
Proof.
  intros Hc. revert tok.
  induction s as [| x s IH]; intros tok Htok; cbn [split_from].
  - destruct (tok =? ""); cbn [In]; [tauto |].
    intros [<- | []]. exact Htok.
  - destruct (isspace x) eqn:Hx.
    + destruct (tok =? ""); cbn [In].
      * now apply IH.
      * intros [<- | Hin]; [exact Htok | now apply (IH "")].
    + apply IH. rewrite has_char_app, Htok. cbn [has_char orb].
      destruct (Ascii.eqb_spec x c) as [-> | _]; [congruence | reflexivity].
Qed.

(** Whatever the selector stores came from a line: the key is
    [name_resid], the value is field 0. *)
Lemma get_dict_selections_entries (lines : list string) (d : dict)
    (k v : string) :
  get_dict_selections lines = Ok d ->
  dict_get d k = Some v ->
  exists line, In line (parsed lines) /\ entry line = Some (k, v).
Proof.
  intros H Hg. apply get_dict_selections_Ok in H.
  apply (select_all_last k (parsed lines) [] d H v) in Hg.
  destruct Hg as [(before & line & after & E & He & _) | [Hg _]];
    [| discriminate].
  exists line. split; [| exact He].
  rewrite E. apply in_elt.
Qed.

Lemma get_dict_selections_values (lines : list string) (d : dict)
    (k v : string) :
  get_dict_selections lines = Ok d ->
  dict_get d k = Some v ->
  has_char "010" v = false.
Proof.
  intros H Hg.
  destruct (get_dict_selections_entries lines d k v H Hg)
    as (line & _ & He).
  apply entry_fields in He as (name & resid & _ & _ & H0 & _).
  apply getitem_In in H0.
  now apply (split_from_no_space "010" line "" v).
Qed.

(** ** Splitting a text into lines *)

Lemma split_sep_from_line (sep : ascii) (tok x rest : string) :
  has_char sep x = false ->
  split_sep_from sep tok (x ++ String sep rest) =
  (tok ++ x) :: split_sep_from sep "" rest.
Proof.
  revert tok. induction x as [| c x IH]; intros tok; cbn [has_char append].
  - intros _. cbn [split_sep_from]. now rewrite Ascii.eqb_refl, append_nil_r.
  - intros H. apply orb_false_elim in H as [Hc Hx].
    cbn [split_sep_from]. rewrite Hc, IH by exact Hx.
    now rewrite append_assoc.
Qed.

Lemma split_sep_from_last (sep : ascii) (tok x : string) :
  has_char sep x = false ->
  split_sep_from sep tok x = [tok ++ x].
Proof.
  intros H. rewrite split_sep_from_spec, H. f_equal.
  f_equal. clear tok.
  induction x as [| c x IH]; cbn [has_char before_first] in *;
    [reflexivity |].
  apply orb_false_elim in H as [Hc Hx]. now rewrite Hc, IH.
Qed.

(** Lines written one after the other, each with its terminator, then a
    last one without: [split] gives them back. *)
Lemma lines_of_terminated (bodies : list string) (final : string) :
  Forall (fun b => has_char "010" b = false) bodies ->
  has_char "010" final = false ->
  lines_of (String.concat "" (map (fun b => b ++ nl) bodies) ++ final)
  = (bodies ++ [final])%list.
Proof.
  intros Hb Hf. unfold lines_of, split_sep.
  induction Hb as [| b bodies Hhead _ IH]; cbn [map app].
  - now apply (split_sep_from_last "010" "" final).
  - rewrite concat_empty_cons, !append_assoc. unfold nl at 1.
    cbn [append]. rewrite split_sep_from_line by exact Hhead.
    now rewrite IH.
Qed.

(** ** The lines of a block *)

Lemma index_of_no_newline (d : dict) (a r : string) :
  (forall k v, dict_get d k = Some v -> has_char "010" v = false) ->
  has_char "010" (index_of d a r) = false.
Proof.
  intros Hv. unfold index_of.
  destruct (dict_get d (a ++ "_" ++ r)) as [v |] eqn:E; [| reflexivity].
  exact (Hv _ v E).
Qed.

Lemma expected_block_no_newline (d : dict) (r : string) :
  (forall k v, dict_get d k = Some v -> has_char "010" v = false) ->
  Forall (fun l => has_char "010" l = false) (expected_block d r).
Proof.
  intros Hv. unfold expected_block.
  repeat constructor;
    now rewrite !has_char_app, !(index_of_no_newline d _ r Hv).
Qed.

(** The lines of a block are indented, so none is one of the three fixed
    lines. *)
Lemma expected_block_not_fixed (d : dict) (rs : list string) (l : string) :
  In l (flat_map (expected_block d) rs) ->
  l <> "#ifdef PUCKER" /\ l <> "[ dihedral_restraints ]" /\ l <> "#endif".
Proof.
  intros H. apply in_flat_map in H as (r & _ & H).
  unfold expected_block in H. cbn [In append] in H.
  destruct H as [<- | [<- | [<- | [<- | [<- | [<- | []]]]]]];
    repeat split; discriminate.
Qed.

Lemma flat_map_expected_block_length (d : dict) (rs : list string) :
  length (flat_map (expected_block d) rs) = 6 * length rs.
Proof.
  induction rs as [| r rs IH]; [reflexivity |].
  cbn [flat_map]. rewrite length_app, IH. cbn [length expected_block]. lia.
Qed.

(** What the six f-strings add for a residue are the expected lines, each
    with its terminator. *)
Lemma ring_atoms_expected (d : dict) (r : string) (block : list string) :
  ring_atoms d r = Ok block ->
  block = map (fun l => l ++ nl) (expected_block d r).
Proof.
  intros Hok.
  destruct (ring_atoms_present d r (ring_atoms_Ok_present d r block Hok))
    as (c1 & o5 & c5 & c4 & c3 & c2 & E & H1 & H2 & H3 & H4 & H5 & H6).
  rewrite E in Hok. injection Hok as <-.
  unfold expected_block, index_of.
  change ("C1" ++ "_" ++ r) with ("C1_" ++ r).
  change ("O5" ++ "_" ++ r) with ("O5_" ++ r).
  change ("C5" ++ "_" ++ r) with ("C5_" ++ r).
  change ("C4" ++ "_" ++ r) with ("C4_" ++ r).
  change ("C3" ++ "_" ++ r) with ("C3_" ++ r).
  change ("C2" ++ "_" ++ r) with ("C2_" ++ r).
  rewrite H1, H2, H3, H4, H5, H6. reflexivity.
Qed.

Lemma blocks_expected (d : dict) (rs : list string)
    (blocks : list (list string)) :
  Forall2 (fun r b => ring_atoms d r = Ok b) rs blocks ->
  List.concat blocks
  = map (fun l => l ++ nl) (flat_map (expected_block d) rs).
Proof.
  induction 1 as [| r b rs blocks Hr _ IH]; [reflexivity |].
  cbn [List.concat flat_map].
  now rewrite map_app, IH, (ring_atoms_expected d r b Hr).
Qed.

(** Lines joined by newlines are lines written one after the other, each
    but the last with its terminator. *)
Lemma concat_nl_lines (xs : list string) (final : string) :
  String.concat nl (xs ++ [final])
  = String.concat "" (map (fun l => l ++ nl) xs) ++ final.
Proof.
  induction xs as [| x xs IH]; [reflexivity |].
  cbn [app map]. rewrite concat_empty_cons, append_assoc, <- IH.
  destruct (xs ++ [final])%list as [| y ys] eqn:E; [now destruct xs |].
  now rewrite append_assoc.
Qed.

Lemma resids_of_NoDup (d : dict) (rs : list string) :
  resids_of d = Ok rs -> NoDup rs.
Proof.
  unfold resids_of.
  destruct (comprehension _ (keys d)) as [ids | e]; cbn [bind];
    [| discriminate].
  intros [= <-]. apply oset_NoDup.
Qed.

(** * The formatter: lines of the output *)

(** C7: for a dictionary built by the selector, with the derived residue
    ids [rs] (they are distinct) and the six keys of each present, the
    text on standard output is exactly the lines [expected_lines d rs],
    each ended by a newline: [#ifdef PUCKER], then
    [[ dihedral_restraints ]], then for each residue in turn its six
    restraint lines, [6 * length rs] in all, then [#endif]; each of the
    three fixed lines occurs exactly once among them. *)
Theorem guard_once_six_lines_per_residue (lines : list string) (d : dict)
    (rs : list string) :
  get_dict_selections lines = Ok d ->
  resids_of d = Ok rs ->
  (forall r a, In r rs -> In a ring_names ->
               dict_get d (a ++ "_" ++ r) <> None) ->
  NoDup rs
  /\ format_restraint d = Ok (String.concat nl (expected_lines d rs) ++ nl)
  /\ lines_of (String.concat nl (expected_lines d rs)) = expected_lines d rs
  /\ expected_lines d rs
     = ("#ifdef PUCKER" :: "[ dihedral_restraints ]"
          :: flat_map (expected_block d) rs ++ ["#endif"])%list
  /\ length (flat_map (expected_block d) rs) = 6 * length rs
  /\ count_occ string_dec (expected_lines d rs) "#ifdef PUCKER" = 1
  /\ count_occ string_dec (expected_lines d rs) "[ dihedral_restraints ]" = 1
  /\ count_occ string_dec (expected_lines d rs) "#endif" = 1.
Proof.
  intros Hsel Hrs Hall. split; [exact (resids_of_NoDup d rs Hrs) |].
  assert (Hv : forall k v, dict_get d k = Some v -> has_char "010" v = false)
    by (intros k v; apply (get_dict_selections_values lines d k v Hsel)).
  destruct (restrain_cases d rs opening)
    as [[blocks Hb] | (r' & e & Hin & Hraise & _)].
  2:{ destruct (ring_atoms_Raise d r' e Hraise) as (a' & Ha' & _ & Hk).
      now destruct (Hall r' a' Hin Ha'). }
  set (body := flat_map (expected_block d) rs).
  assert (Hjoin :
    String.concat nl (expected_lines d rs)
    = opening ++ String.concat "" (List.concat blocks) ++ closing).
  { unfold expected_lines. fold body.
    change ("#ifdef PUCKER" :: "[ dihedral_restraints ]"
              :: body ++ ["#endif"])%list
      with (("#ifdef PUCKER" :: "[ dihedral_restraints ]" :: body)
              ++ ["#endif"])%list.
    rewrite concat_nl_lines, (blocks_expected d rs blocks Hb). fold body.
    cbn [map]. rewrite !concat_empty_cons, !append_assoc. reflexivity. }
  assert (Hnot : forall x,
             In x ["#ifdef PUCKER"; "[ dihedral_restraints ]"; "#endif"] ->
             count_occ string_dec body x = 0).
  { intros x Hx. apply count_occ_not_In. intros Hin.
    apply expected_block_not_fixed in Hin. cbn in Hx.
    intuition congruence. }
  split.
  { rewrite (format_restraint_Ok d rs blocks Hrs Hb). unfold print.
    now rewrite Hjoin. }
  split.
  { unfold expected_lines at 1. fold body.
    change ("#ifdef PUCKER" :: "[ dihedral_restraints ]"
              :: body ++ ["#endif"])%list
      with (("#ifdef PUCKER" :: "[ dihedral_restraints ]" :: body)
              ++ ["#endif"])%list.
    rewrite concat_nl_lines, lines_of_terminated; [reflexivity | | reflexivity].
    repeat constructor. unfold body.
    clear -Hv. induction rs as [| r rs IH]; [constructor |].
    cbn [flat_map]. apply Forall_app. split; [| exact IH].
    now apply expected_block_no_newline. }
  split; [reflexivity |].
  split; [apply flat_map_expected_block_length |].
  unfold expected_lines. fold body.
  repeat split.
  - cbn [count_occ]. destruct (string_dec _ _); [| congruence].
    destruct (string_dec _ _); [discriminate |].
    rewrite count_occ_app, Hnot by (cbn; tauto). reflexivity.
  - cbn [count_occ]. destruct (string_dec _ _); [discriminate |].
    destruct (string_dec _ _); [| congruence].
    rewrite count_occ_app, Hnot by (cbn; tauto). reflexivity.
  - cbn [count_occ]. destruct (string_dec _ _); [discriminate |].
    destruct (string_dec _ _); [discriminate |].
    rewrite count_occ_app, Hnot by (cbn; tauto). reflexivity.
Qed.

Lemma guard_once_six_lines_per_residue_witness :
  NoDup ["5"; "6"]
  /\ format_restraint two_residue_dict
     = Ok (String.concat nl (expected_lines two_residue_dict ["5"; "6"])
             ++ nl)
  /\ lines_of (String.concat nl (expected_lines two_residue_dict ["5"; "6"]))
     = expected_lines two_residue_dict ["5"; "6"]
  /\ expected_lines two_residue_dict ["5"; "6"]
     = ("#ifdef PUCKER" :: "[ dihedral_restraints ]"
          :: flat_map (expected_block two_residue_dict) ["5"; "6"]
          ++ ["#endif"])%list
  /\ length (flat_map (expected_block two_residue_dict) ["5"; "6"])
     = 6 * length ["5"; "6"]
  /\ count_occ string_dec (expected_lines two_residue_dict ["5"; "6"])
       "#ifdef PUCKER" = 1
  /\ count_occ string_dec (expected_lines two_residue_dict ["5"; "6"])
       "[ dihedral_restraints ]" = 1
  /\ count_occ string_dec (expected_lines two_residue_dict ["5"; "6"])
       "#endif" = 1.
Proof.
  apply (guard_once_six_lines_per_residue two_residue_file
           two_residue_dict ["5"; "6"]).
  - vm_compute. reflexivity.
  - reflexivity.
  - intros r a [<- | [<- | []]] Ha; cbn in Ha;
      destruct Ha as [<- | [<- | [<- | [<- | [<- | [<- | []]]]]]];
      discriminate.
Defined.

(** * The scenario of the specification *)

(** ** A section with a title line and a separating line *)

(** With [start] set, the lines up to the one before the line that
    precedes the [[ bonds ]] marker all go through [select]. *)
Lemma scan_from_records (recs post : list string) (prev sep stop : string)
    (d : dict) :
  Forall (fun l => contains "[ bonds ]" l = false) recs ->
  contains "[ bonds ]" sep = false ->
  contains "[ bonds ]" stop = true ->
  scan_from prev (recs ++ sep :: stop :: post) true d = select_all recs d.
Proof.
  intros Hrecs Hsep Hstop. revert prev d.
  induction Hrecs as [| r recs Hr Hrest IH]; intros prev d.
  - cbn [app scan_from]. now rewrite Hstop.
  - cbn [app scan_from select_all].
    assert (Hnext : exists next rest,
               (recs ++ sep :: stop :: post)%list = next :: rest /\
               contains "[ bonds ]" next = false).
    { destruct Hrest as [| r' recs' Hr' _]; cbn [app]; eauto. }
    destruct Hnext as (next & rest & E & Hn).
    rewrite E, Hn, <- E.
    destruct (select r d) as [d' | e]; cbn [bind orb]; [apply IH | trivial].
Qed.

Lemma get_dict_selections_section (col sep : string) (recs : list string) :
  contains "[ bonds ]" col = false ->
  contains "[ bonds ]" sep = false ->
  Forall (fun l => contains "[ bonds ]" l = false) recs ->
  get_dict_selections
    ([ln "[ atoms ]"; col] ++ recs ++ [sep; ln "[ bonds ]"])
  = select_all recs [].
Proof.
  intros Hcol Hsep Hrecs.
  rewrite get_dict_selections_scan_from.
  replace (last ([ln "[ atoms ]"; col] ++ recs ++ [sep; ln "[ bonds ]"]) "")
    with (ln "[ bonds ]").
  2:{ replace ([ln "[ atoms ]"; col] ++ recs ++ [sep; ln "[ bonds ]"])%list
        with (([ln "[ atoms ]"; col] ++ recs ++ [sep]) ++ [ln "[ bonds ]"])%list.
      - now rewrite last_last.
      - now rewrite <- !app_assoc. }
  cbn [app scan_from]. rewrite Hcol. cbn [bind].
  assert (Hnext : exists next rest,
             (recs ++ [sep; ln "[ bonds ]"])%list = next :: rest /\
             contains "[ bonds ]" next = false).
  { destruct Hrecs as [| r' recs' Hr' _]; cbn [app]; eauto. }
  destruct Hnext as (next & rest & E & Hn).
  rewrite E, Hn, <- E. cbn [bind].
  change (false || contains "[ atoms ]" (ln "[ bonds ]"))%bool with false.
  change (false || contains "[ atoms ]" (ln "[ atoms ]"))%bool with true.
  now apply scan_from_records.
Qed.

(** ** Every order of the records *)

Lemma inserts_In {A : Type} (x : A) (l1 l2 : list A) :
  In (l1 ++ x :: l2)%list (inserts x (l1 ++ l2)).
Proof.
  induction l1 as [| y l1 IH]; cbn [app inserts].
  - destruct l2; now left.
  - right. now apply in_map.
Qed.

Lemma perms_complete {A : Type} (l l' : list A) :
  Permutation l l' -> In l' (perms l).
Proof.
  revert l'. induction l as [| x l IH]; intros l' H.
  - apply Permutation_nil in H. subst. now left.
  - assert (Hin : In x l') by (apply (Permutation_in x H); now left).
    apply in_split in Hin as (l1 & l2 & ->).
    apply Permutation_cons_app_inv in H.
    cbn [perms]. apply in_flat_map.
    exists (l1 ++ l2)%list. split; [now apply IH | apply inserts_In].
Qed.

(** * The scenario: claims *)

(** C2, as stated, fails: with the six records directly between the
    [[ atoms ]] and [[ bonds ]] headers, the first and the last record are
    not parsed and the program raises [KeyError] instead of printing. *)
Lemma scenario_between_headers_raises :
  scenario_headers_only
  = (ln "[ atoms ]" :: ring_records ++ [ln "[ bonds ]"])%list /\
  parsed scenario_headers_only
  = [ln "11 x 5 AIDOA O5"; ln "12 x 5 AIDOA C5";
     ln "13 x 5 AIDOA C4"; ln "14 x 5 AIDOA C3"] /\
  main scenario_headers_only = Raise (KeyError "C1_5").
Proof.
  repeat split.
Qed.

(** C2 (amended): when the [[ atoms ]] header is followed by one further
    line [col], then by the six records of residue 5 in any order, then by
    one further line [sep] and the [[ bonds ]] header, neither further line
    holding the [[ bonds ]] marker, the program prints the block of the
    specification, character for character. *)
Theorem scenario_prints_block (col sep : string) (records : list string) :
  contains "[ bonds ]" col = false ->
  contains "[ bonds ]" sep = false ->
  Permutation ring_records records ->
  main ([ln "[ atoms ]"; col] ++ records ++ [sep; ln "[ bonds ]"])
  = Ok scenario_output.
Proof.
  intros Hcol Hsep Hperm. unfold main.
  rewrite get_dict_selections_section; [| exact Hcol | exact Hsep |].
  - assert (Hall : forallb (prints scenario_output) (perms ring_records)
                   = true) by (vm_compute; reflexivity).
    rewrite forallb_forall in Hall.
    specialize (Hall records (perms_complete ring_records records Hperm)).
    unfold prints in Hall.
    destruct (dictio <- select_all records [] ;; format_restraint dictio)
      as [out | e]; [| discriminate].
    apply String.eqb_eq in Hall. now subst.
  - apply (Permutation_Forall Hperm). repeat constructor.
Qed.

Lemma scenario_prints_block_witness :
  main ([ln "[ atoms ]"; ln "; nr type resnr residue atom"]
          ++ rev ring_records ++ [nl; ln "[ bonds ]"])
  = Ok scenario_output.
Proof.
  apply scenario_prints_block.
  - reflexivity.
  - reflexivity.
  - apply Permutation_rev.
Defined.

(** * Further properties of the selector *)

(** ** Active lines and their entries *)

Lemma In_combine_seq {A : Type} (l : list A) (s i : nat) (x : A) :
  In (i, x) (combine (seq s (length l)) l) ->
  s <= i /\ nth_error l (i - s) = Some x.
Proof.
  revert s. induction l as [| y l IH]; intros s; cbn [length seq combine In].
  - contradiction.
  - intros [[= <- <-] | H].
    + rewrite Nat.sub_diag. split; [lia | reflexivity].
    + apply IH in H as [Hle Hn]. split; [lia |].
      replace (i - s) with (S (i - S s)) by lia. exact Hn.
Qed.

(** A parsed line is a line of the file at an active index. *)
Lemma parsed_In (lines : list string) (line : string) :
  In line (parsed lines) ->
  exists i, nth_error lines i = Some line /\ active lines i = true.
Proof.
  unfold parsed. intros H.
  apply in_map_iff in H as ([i l] & E & H). cbn [snd] in E. subst l.
  apply filter_In in H as [H Ha]. cbn [fst] in Ha.
  apply In_combine_seq in H as [_ H]. rewrite Nat.sub_0_r in H. eauto.
Qed.

(** A line with an entry has five fields and passes both filters. *)
Lemma entry_inv (line k v : string) :
  entry line = Some (k, v) ->
  exists index unused resid resname name rest,
    split line = index :: unused :: resid :: resname :: name :: rest /\
    (exists idoa, In idoa idoa_names /\ is_substring idoa resname) /\
    (exists atom, In atom atom_names /\ is_substring atom name) /\
    k = name ++ "_" ++ resid /\ v = index.
Proof.
  unfold entry, select.
  change 3%Z with (Z.of_nat 3). change 4%Z with (Z.of_nat 4).
  change 2%Z with (Z.of_nat 2). change 0%Z with (Z.of_nat 0).
  rewrite !getitem_nat.
  destruct (split line) as [| f0 [| f1 [| f2 [| f3 [| f4 rest]]]]];
    cbn [nth_error bind]; try discriminate.
  - destruct (any _ idoa_names); discriminate.
  - destruct (any (fun idoa => contains idoa f3) idoa_names) eqn:E1;
      [| discriminate].
    destruct (any (fun atom => contains atom f4) atom_names) eqn:E2;
      [| discriminate].
    cbn [dict_set]. intros [= <- <-].
    apply existsb_exists in E1 as (idoa & Hi & Hc1).
    apply existsb_exists in E2 as (atom & Ha & Hc2).
    apply contains_spec in Hc1, Hc2.
    exists f0, f1, f2, f3, f4, rest. eauto 10.
Qed.

(** ** The selector on any file *)

(** X1: the selector on any file.  The empty file gives the empty
    dictionary; a file with a [[ bonds ]] marker on its second line or
    later gives what [select] makes of the active lines; any other file
    raises [IndexError], also when its first line holds the marker. *)
Theorem get_dict_selections_cases (lines : list string) :
  get_dict_selections lines =
  if existsb (contains "[ bonds ]") (tl lines)
  then select_all (parsed lines) []
  else match lines with
       | [] => Ok []
       | _ :: _ => Raise IndexError
       end.
Proof.
  destruct (existsb (contains "[ bonds ]") (tl lines)) eqn:Hb.
  - now apply get_dict_selections_parsed.
  - destruct lines as [| l0 lines]; [reflexivity |].
    rewrite get_dict_selections_scan_from.
    apply scan_from_no_bonds; [discriminate | exact Hb].
Qed.

(** X2: every entry of a returned dictionary comes from an active line of
    the file, with at least five fields, whose field 3 has ["YuA"] or
    ["AIDOA"] as a substring and whose field 4 has one of the six atom
    names as a substring; the key is field 4, an underscore and field 2,
    the value is field 0. *)
Theorem selector_entries_sound (lines : list string) (d : dict)
    (k v : string) :
  get_dict_selections lines = Ok d ->
  dict_get d k = Some v ->
  exists i line unused resid resname name rest,
    nth_error lines i = Some line /\
    active lines i = true /\
    split line = v :: unused :: resid :: resname :: name :: rest /\
    (exists idoa, In idoa idoa_names /\ is_substring idoa resname) /\
    (exists atom, In atom atom_names /\ is_substring atom name) /\
    k = name ++ "_" ++ resid.
Proof.
  intros H Hg.
  destruct (get_dict_selections_entries lines d k v H Hg)
    as (line & Hin & He).
  destruct (parsed_In lines line Hin) as (i & Hn & Ha).
  destruct (entry_inv line k v He)
    as (index & unused & resid & resname & name & rest
        & Hs & Hres & Hat & -> & ->).
  exists i, line, unused, resid, resname, name, rest. auto 7.
Qed.

Lemma selector_entries_sound_witness :
  exists i line unused resid resname name rest,
    nth_error short_record_file i = Some line /\
    active short_record_file i = true /\
    split line = "11" :: unused :: resid :: resname :: name :: rest /\
    (exists idoa, In idoa idoa_names /\ is_substring idoa resname) /\
    (exists atom, In atom atom_names /\ is_substring atom name) /\
    "O5_5" = name ++ "_" ++ resid.
Proof.
  apply (selector_entries_sound short_record_file
           [("C1_5", "10"); ("O5_5", "11")]); reflexivity.
Defined.

(** ** Before, at and after the markers *)

Lemma scan_from_lookback (prev prev' : string) (todo : list string)
    (start : bool) (d : dict) :
  contains "[ atoms ]" prev = contains "[ atoms ]" prev' ->
  scan_from prev todo start d = scan_from prev' todo start d.
Proof.
  intros H. destruct todo as [| line [| next rest]]; cbn [scan_from];
    [reflexivity | reflexivity |].
  now rewrite H.
Qed.

Lemma scan_from_after_stop (before after after' : list string)
    (prev stop : string) (start : bool) (d : dict) :
  before <> [] ->
  contains "[ bonds ]" stop = true ->
  scan_from prev (before ++ stop :: after) start d =
  scan_from prev (before ++ stop :: after') start d.
Proof.
  intros Hne Hstop. revert prev start d.
  induction before as [| line before IH]; intros prev start d;
    [congruence |].
  destruct before as [| next before].
  - cbn [app scan_from]. now rewrite Hstop.
  - cbn [app scan_from]. cbn [app] in IH.
    destruct (contains "[ bonds ]" next); [reflexivity |].
    destruct (if start then select line d else Ok d); cbn [bind];
      [| reflexivity].
    apply IH. discriminate.
Qed.

Lemma last_app_cons {A : Type} (l1 l2 : list A) (x d : A) :
  last (l1 ++ x :: l2) d = last (x :: l2) d.
Proof.
  induction l1 as [| y l1 IH]; [reflexivity |].
  cbn [app]. rewrite <- IH. cbn [last].
  destruct (l1 ++ x :: l2)%list eqn:E; [| reflexivity].
  now destruct l1.
Qed.

(** X3: what follows the first line that stops the scan is not read,
    except that the first iteration looks back at the last line of the
    file: two files that agree up to a [[ bonds ]] line (not their first
    line), and whose last lines agree on holding the [[ atoms ]] marker,
    give the same result. *)
Theorem lines_after_bonds_ignored (before after after' : list string)
    (stop : string) :
  before <> [] ->
  contains "[ bonds ]" stop = true ->
  contains "[ atoms ]" (last (stop :: after) "")
  = contains "[ atoms ]" (last (stop :: after') "") ->
  get_dict_selections (before ++ stop :: after)
  = get_dict_selections (before ++ stop :: after').
Proof.
  intros Hne Hstop Hlast.
  rewrite !get_dict_selections_scan_from, !last_app_cons.
  rewrite (scan_from_lookback _ _ _ _ _ Hlast).
  now apply scan_from_after_stop.
Qed.

Lemma lines_after_bonds_ignored_witness :
  get_dict_selections
    ([ln "[ atoms ]"; ln "; nr"; ln "10 x 5 AIDOA C1"; nl]
       ++ ln "[ bonds ]" :: [ln "1 2"; ln "[ pairs ]"])
  = get_dict_selections
      ([ln "[ atoms ]"; ln "; nr"; ln "10 x 5 AIDOA C1"; nl]
         ++ ln "[ bonds ]" :: []).
Proof.
  apply lines_after_bonds_ignored.
  - discriminate.
  - reflexivity.
  - reflexivity.
Defined.

(** X4: the lookback of the first iteration is [lines[-1]].  When the last
    line of the file holds the [[ atoms ]] marker, [start] is set at the
    end of the first iteration: the selector runs [select] on every line
    from the second one up to the line before the one that precedes the
    [[ bonds ]] line, with no [[ atoms ]] header before them. *)
Theorem atoms_on_last_line_starts_at_once (first sep stop : string)
    (recs post : list string) :
  Forall (fun l => contains "[ bonds ]" l = false) recs ->
  contains "[ bonds ]" sep = false ->
  contains "[ bonds ]" stop = true ->
  contains "[ atoms ]" (last (stop :: post) "") = true ->
  get_dict_selections (first :: recs ++ sep :: stop :: post)
  = select_all recs [].
Proof.
  intros Hrecs Hsep Hstop Hlast.
  rewrite get_dict_selections_scan_from.
  assert (Hprev : contains "[ atoms ]"
                    (last (first :: recs ++ sep :: stop :: post) "") = true).
  { change (first :: recs ++ sep :: stop :: post)%list
      with ((first :: recs) ++ sep :: stop :: post)%list.
    rewrite last_app_cons.
    change (sep :: stop :: post)%list with ([sep] ++ stop :: post)%list.
    now rewrite last_app_cons. }
  cbn [scan_from].
  assert (Hnext : exists next tail,
             (recs ++ sep :: stop :: post)%list = next :: tail /\
             contains "[ bonds ]" next = false).
  { destruct Hrecs as [| r' recs' Hr' _]; cbn [app]; eauto. }
  destruct Hnext as (next & tail & En & Hn).
  rewrite En, Hn, <- En. cbn [bind]. rewrite Hprev. cbn [orb].
  now apply scan_from_records.
Qed.

Lemma atoms_on_last_line_starts_at_once_witness :
  get_dict_selections atoms_last_file
  = select_all [ln "10 x 5 AIDOA C1"] [].
Proof.
  apply (atoms_on_last_line_starts_at_once
           (ln "; topology") nl (ln "[ bonds ]")
           [ln "10 x 5 AIDOA C1"] [ln "1 2"; ln "[ atoms ]"]).
  - repeat constructor.
  - reflexivity.
  - reflexivity.
  - reflexivity.
Defined.

Lemma scan_from_not_started (before after : list string)
    (prev stop : string) (d : dict) :
  before <> [] ->
  Forall (fun l => contains "[ atoms ]" l = false) before ->
  contains "[ atoms ]" prev = false ->
  contains "[ bonds ]" stop = true ->
  scan_from prev (before ++ stop :: after) false d = Ok d.
Proof.
  intros Hne Hall. revert prev d.
  induction Hall as [| line before Hline Hrest IH]; intros prev d Hprev Hstop;
    [congruence |].
  destruct before as [| next before].
  - cbn [app scan_from]. now rewrite Hstop.
  - cbn [app scan_from]. cbn [app] in IH.
    destruct (contains "[ bonds ]" next); [reflexivity |].
    cbn [bind]. rewrite Hprev. cbn [orb].
    apply IH; [discriminate | exact Hline | exact Hstop].
Qed.

(** X5: when a [[ bonds ]] line (not the first line) comes before any
    [[ atoms ]] marker, and the last line of the file holds no [[ atoms ]]
    marker, the selector returns the empty dictionary without an error,
    whatever follows, and the text on standard output is [bare_block]:
    the three fixed lines, each ended by a newline. *)
Theorem bonds_before_atoms_selects_nothing (before after : list string)
    (stop : string) :
  before <> [] ->
  Forall (fun l => contains "[ atoms ]" l = false) before ->
  contains "[ bonds ]" stop = true ->
  contains "[ atoms ]" (last (stop :: after) "") = false ->
  get_dict_selections (before ++ stop :: after) = Ok []
  /\ main (before ++ stop :: after) = Ok bare_block.
Proof.
  intros Hne Hall Hstop Hlast.
  assert (H : get_dict_selections (before ++ stop :: after) = Ok []).
  { rewrite get_dict_selections_scan_from, last_app_cons.
    now apply scan_from_not_started. }
  split; [exact H |]. unfold main. now rewrite H.
Qed.

Lemma bonds_before_atoms_selects_nothing_witness :
  get_dict_selections bonds_first_file = Ok []
  /\ main bonds_first_file = Ok bare_block.
Proof.
  apply (bonds_before_atoms_selects_nothing
           [ln "[ moleculetype ]"]
           [ln "1 2"; ln "[ atoms ]"; ln "; nr type resnr residue atom";
            ln "10 x 5 AIDOA C1"; nl]
           (ln "[ bonds ]")).
  - discriminate.
  - repeat constructor.
  - reflexivity.
  - reflexivity.
Defined.

(** * Further properties of the formatter *)

(** ** Keys of a dictionary built by the selector *)

Lemma dict_get_In_keys (d : dict) (k : string) :
  In k (keys d) -> exists v, dict_get d k = Some v.
Proof.
  induction d as [| [k' v'] d IH]; cbn [keys map fst In dict_get];
    [contradiction |].
  destruct (String.eqb_spec k' k) as [-> | Hne]; [eauto |].
  intros [H | H]; [congruence | auto].
Qed.

Lemma selector_keys_underscore (lines : list string) (d : dict)
    (k : string) :
  get_dict_selections lines = Ok d ->
  In k (keys d) ->
  has_char "_" k = true.
Proof.
  intros H Hin.
  destruct (dict_get_In_keys d k Hin) as [v Hg].
  destruct (get_dict_selections_entries lines d k v H Hg) as (line & _ & He).
  apply entry_fields in He as (name & resid & _ & _ & _ & ->).
  rewrite !has_char_app. cbn. apply orb_true_r.
Qed.

Lemma resids_of_selected (lines : list string) (d : dict) :
  get_dict_selections lines = Ok d ->
  resids_of d = Ok (first_occurrences (map derived_id (keys d))).
Proof.
  intros H. unfold resids_of.
  rewrite (comprehension_Ok _ derived_id).
  - cbn [bind]. now rewrite oset_first_occurrences.
  - intros k Hin.
    now rewrite second_field, (selector_keys_underscore lines d k H Hin).
Qed.

(** ** Which exception *)

Lemma comprehension_first_Raise {A B : Type} (f : A -> result B)
    (n1 n2 : list A) (a : A) (e : exn) :
  (forall b, In b n1 -> exists y, f b = Ok y) ->
  f a = Raise e ->
  comprehension f (n1 ++ a :: n2) = Raise e.
Proof.
  intros Hok Ha. induction n1 as [| b n1 IH]; cbn [app comprehension].
  - now rewrite Ha.
  - destruct (Hok b) as [y Hy]; [now left |]. rewrite Hy. cbn [bind].
    rewrite IH; [reflexivity |]. intros b' Hb'. apply Hok. now right.
Qed.

(** The six lookups of a residue are made in the order of [ring_names]. *)
Lemma ring_atoms_comprehension (d : dict) (r : string) :
  ring_atoms d r =
  (vals <- comprehension (fun a => lookup d (a ++ "_" ++ r)) ring_names ;;
   match vals with
   | [c1; o5; c5; c4; c3; c2] => Ok (six_restraints c1 o5 c5 c4 c3 c2)
   | _ => Raise IndexError
   end).
Proof.
  unfold ring_atoms, ring_names. cbn [comprehension append].
  destruct (lookup d _); cbn [bind]; [| reflexivity].
  destruct (lookup d _); cbn [bind]; [| reflexivity].
  destruct (lookup d _); cbn [bind]; [| reflexivity].
  destruct (lookup d _); cbn [bind]; [| reflexivity].
  destruct (lookup d _); cbn [bind]; [| reflexivity].
  destruct (lookup d _); cbn [bind]; reflexivity.
Qed.

Lemma restrain_first_Raise (d : dict) (rs1 rs2 : list string) (r : string)
    (e : exn) (s : string) :
  (forall r', In r' rs1 -> exists b, ring_atoms d r' = Ok b) ->
  ring_atoms d r = Raise e ->
  restrain d (rs1 ++ r :: rs2) s = Raise e.
Proof.
  intros Hok Hr. revert s.
  induction rs1 as [| r' rs1 IH]; intros s; cbn [app restrain].
  - now rewrite Hr.
  - destruct (Hok r') as [b Hb]; [now left |]. rewrite Hb. cbn [bind].
    apply IH. intros r'' H''. apply Hok. now right.
Qed.

(** * The formatter and the program: further claims *)

(** X6: on a dictionary returned by the selector the derivation of the
    residue ids never raises: every key holds an underscore, and the ids
    are the first occurrences of the keys' second fields. *)
Theorem selected_keys_give_residue_ids (lines : list string) (d : dict) :
  get_dict_selections lines = Ok d ->
  (forall k, In k (keys d) -> has_char "_" k = true)
  /\ resids_of d = Ok (first_occurrences (map derived_id (keys d))).
Proof.
  intros H. split.
  - intros k. now apply (selector_keys_underscore lines d k).
  - now apply (resids_of_selected lines).
Qed.

Lemma selected_keys_give_residue_ids_witness :
  (forall k, In k (keys two_residue_dict) -> has_char "_" k = true)
  /\ resids_of two_residue_dict
     = Ok (first_occurrences (map derived_id (keys two_residue_dict))).
Proof.
  apply (selected_keys_give_residue_ids two_residue_file).
  vm_compute. reflexivity.
Defined.

(** X7: how the formatter fails on a dictionary returned by the
    selector.  It then raises the [KeyError] of a key [a_r] that the
    dictionary lacks, where [a] is one of the six atom names and [r] the
    second field of a key that the dictionary has; the [IndexError] that
    line 79 raises on a key without underscore does not occur. *)
Theorem formatter_fails_only_on_missing_key (lines : list string) (d : dict)
    (e : exn) :
  get_dict_selections lines = Ok d ->
  format_restraint d = Raise e ->
  exists a r k,
    e = KeyError (a ++ "_" ++ r) /\
    dict_get d (a ++ "_" ++ r) = None /\
    In a ring_names /\
    In k (keys d) /\ derived_id k = r.
Proof.
  intros Hsel Hfmt.
  pose proof (resids_of_selected lines d Hsel) as Hrs.
  set (rs := first_occurrences (map derived_id (keys d))) in Hrs.
  unfold format_restraint in Hfmt. rewrite Hrs in Hfmt. cbn [bind] in Hfmt.
  destruct (restrain_cases d rs
              (("#ifdef PUCKER" ++ nl) ++ "[ dihedral_restraints ]" ++ nl))
    as [[blocks Hb] | (r & e' & Hin & Hraise & Hres)].
  - rewrite (restrain_Ok d rs blocks _ Hb) in Hfmt. discriminate.
  - rewrite Hres in Hfmt. cbn [bind] in Hfmt. injection Hfmt as <-.
    destruct (ring_atoms_Raise d r e' Hraise) as (a & Ha & -> & Hk).
    apply first_occurrences_upto_In, in_map_iff in Hin
      as (k & Hk' & Hin).
    exists a, r, k. auto 6.
Qed.

Lemma formatter_fails_only_on_missing_key_witness :
  exists a r k,
    KeyError "C1_7" = KeyError (a ++ "_" ++ r) /\
    dict_get underscore_residue_dict (a ++ "_" ++ r) = None /\
    In a ring_names /\
    In k (keys underscore_residue_dict) /\ derived_id k = r.
Proof.
  apply (formatter_fails_only_on_missing_key underscore_residue_file
           underscore_residue_dict); reflexivity.
Defined.

(** X8: which key the [KeyError] names.  The residues are visited in the
    order of the ids and, for each, the keys in the order C1, O5, C5, C4,
    C3, C2; the first absent key met in that order is the one raised. *)
Theorem first_missing_key_raised (d : dict) (rs1 rs2 n1 n2 : list string)
    (r a : string) :
  resids_of d = Ok (rs1 ++ r :: rs2)%list ->
  (forall r' b, In r' rs1 -> In b ring_names ->
                dict_get d (b ++ "_" ++ r') <> None) ->
  ring_names = (n1 ++ a :: n2)%list ->
  (forall b, In b n1 -> dict_get d (b ++ "_" ++ r) <> None) ->
  dict_get d (a ++ "_" ++ r) = None ->
  format_restraint d = Raise (KeyError (a ++ "_" ++ r)).
Proof.
  intros Hrs Hbefore Hnames Hpresent Habsent.
  assert (Hr : ring_atoms d r = Raise (KeyError (a ++ "_" ++ r))).
  { rewrite ring_atoms_comprehension, Hnames.
    rewrite (comprehension_first_Raise _ n1 n2 a
               (KeyError (a ++ "_" ++ r))); [reflexivity | |].
    - intros b Hb. unfold lookup.
      specialize (Hpresent b Hb).
      destruct (dict_get d (b ++ "_" ++ r)); [eauto | congruence].
    - unfold lookup. now rewrite Habsent. }
  unfold format_restraint. rewrite Hrs. cbn [bind].
  rewrite (restrain_first_Raise d rs1 rs2 r (KeyError (a ++ "_" ++ r)));
    [reflexivity | | exact Hr].
  intros r' Hr'.
  destruct (ring_atoms_present d r' (fun b => Hbefore r' b Hr'))
    as (c1 & o5 & c5 & c4 & c3 & c2 & E & _).
  eauto.
Qed.

Lemma first_missing_key_raised_witness :
  format_restraint two_gaps_dict = Raise (KeyError "C5_6").
Proof.
  apply (first_missing_key_raised two_gaps_dict [] ["5"]
           ["C1"; "O5"] ["C4"; "C3"; "C2"] "6" "C5").
  - reflexivity.
  - intros r' b [].
  - reflexivity.
  - intros b [<- | [<- | []]]; discriminate.
  - reflexivity.
Defined.

(** * Reading the restraint lines back *)

(** ** Fields *)

Lemma has_space_app (a b : string) :
  has_space (a ++ b) = (has_space a || has_space b)%bool.
Proof.
  induction a as [| x a IH]; cbn [append has_space]; [reflexivity |].
  now rewrite IH, orb_assoc.
Qed.

(** What [split] returns are fields. *)
Lemma split_from_fields (s tok f : string) :
  has_space tok = false ->
  In f (split_from tok s) ->
  is_field f.
Proof.
  revert tok. induction s as [| x s IH]; intros tok Htok; cbn [split_from].
  - destruct (String.eqb_spec tok ""); cbn [In]; [tauto |].
    intros [<- | []]. now split.
  - destruct (isspace x) eqn:Hx.
    + destruct (String.eqb_spec tok ""); cbn [In].
      * now apply IH.
      * intros [<- | Hin]; [now split | now apply (IH "")].
    + apply IH. rewrite has_space_app, Htok. cbn [has_space].
      now rewrite Hx.
Qed.

(** A field followed by whitespace is read as one field. *)
Lemma split_from_token (t tok rest : string) (c : ascii) :
  has_space t = false ->
  isspace c = true ->
  tok ++ t <> "" ->
  split_from tok (t ++ String c rest) = (tok ++ t) :: split_from "" rest.
Proof.
  intros Ht Hc. revert tok.
  induction t as [| x t IH]; intros tok Hne; cbn [append split_from].
  - rewrite append_nil_r in Hne |- *. rewrite Hc.
    destruct (String.eqb_spec tok ""); [contradiction | reflexivity].
  - cbn [has_space] in Ht. apply orb_false_elim in Ht as [Hx Ht].
    rewrite Hx, (IH Ht).
    + now rewrite append_assoc.
    + rewrite append_assoc. cbn [append]. now destruct tok.
Qed.

Lemma split_from_space (c : ascii) (s : string) :
  isspace c = true -> split_from "" (String c s) = split_from "" s.
Proof.
  intros Hc. cbn [split_from]. now rewrite Hc.
Qed.

(** One f-string line splits into its four indices and the fields of the
    literal rest. *)
Lemma split_restraint (a b c d rest : string) :
  is_field a -> is_field b -> is_field c -> is_field d ->
  split (restraint a b c d (String " " rest))
  = a :: b :: c :: d :: split (rest ++ nl).
Proof.
  intros [Ha Hsa] [Hb Hsb] [Hc Hsc] [Hd Hsd].
  unfold split, restraint, restraint_text.
  rewrite !append_assoc. cbn [append].
  rewrite !split_from_space by reflexivity.
  rewrite (split_from_token a "") by (auto; reflexivity).
  rewrite !split_from_space by reflexivity.
  rewrite (split_from_token b "") by (auto; reflexivity).
  rewrite !split_from_space by reflexivity.
  rewrite (split_from_token c "") by (auto; reflexivity).
  rewrite !split_from_space by reflexivity.
  rewrite (split_from_token d "") by (auto; reflexivity).
  reflexivity.
Qed.

Lemma split_six_restraints (c1 o5 c5 c4 c3 c2 : string) :
  is_field c1 -> is_field o5 -> is_field c5 ->
  is_field c4 -> is_field c3 -> is_field c2 ->
  map split (six_restraints c1 o5 c5 c4 c3 c2)
  = restraint_rows c1 o5 c5 c4 c3 c2.
Proof.
  intros H1 H2 H3 H4 H5 H6. unfold six_restraints, restraint_rows.
  cbn [map]. rewrite !split_restraint by assumption. reflexivity.
Qed.

(** The indices stored by the selector are fields. *)
Lemma get_dict_selections_fields (lines : list string) (d : dict)
    (k v : string) :
  get_dict_selections lines = Ok d ->
  dict_get d k = Some v ->
  is_field v.
Proof.
  intros H Hg.
  destruct (get_dict_selections_entries lines d k v H Hg)
    as (line & _ & He).
  apply entry_fields in He as (name & resid & _ & _ & H0 & _).
  apply getitem_In in H0.
  now apply (split_from_fields line "" v).
Qed.

(** X9: the lines written for a residue read back.  For a dictionary
    returned by the selector, each of the six lines of a residue, split on
    whitespace as the selector splits its input, has thirteen fields: the
    four atom indices in the order of the quadruplet, then [1], the angle,
    [2.5], [DIHRES_FC], [;] and the four atom names. *)
Theorem restraint_lines_split_back (lines : list string) (d : dict)
    (r : string) (block : list string) :
  get_dict_selections lines = Ok d ->
  ring_atoms d r = Ok block ->
  exists c1 o5 c5 c4 c3 c2,
    dict_get d ("C1_" ++ r) = Some c1 /\
    dict_get d ("O5_" ++ r) = Some o5 /\
    dict_get d ("C5_" ++ r) = Some c5 /\
    dict_get d ("C4_" ++ r) = Some c4 /\
    dict_get d ("C3_" ++ r) = Some c3 /\
    dict_get d ("C2_" ++ r) = Some c2 /\
    map split block = restraint_rows c1 o5 c5 c4 c3 c2.
Proof.
  intros Hsel Hok.
  destruct (ring_atoms_present d r (ring_atoms_Ok_present d r block Hok))
    as (c1 & o5 & c5 & c4 & c3 & c2 & E & H1 & H2 & H3 & H4 & H5 & H6).
  rewrite E in Hok. injection Hok as <-.
  exists c1, o5, c5, c4, c3, c2.
  repeat (split; [assumption |]).
  apply split_six_restraints;
    eapply (get_dict_selections_fields lines d); eassumption.
Qed.

Lemma restraint_lines_split_back_witness :
  exists c1 o5 c5 c4 c3 c2,
    dict_get two_residue_dict ("C1_" ++ "6") = Some c1 /\
    dict_get two_residue_dict ("O5_" ++ "6") = Some o5 /\
    dict_get two_residue_dict ("C5_" ++ "6") = Some c5 /\
    dict_get two_residue_dict ("C4_" ++ "6") = Some c4 /\
    dict_get two_residue_dict ("C3_" ++ "6") = Some c3 /\
    dict_get two_residue_dict ("C2_" ++ "6") = Some c2 /\
    map split (six_restraints "20" "21" "22" "23" "24" "25")
    = restraint_rows c1 o5 c5 c4 c3 c2.
Proof.
  apply (restraint_lines_split_back two_residue_file two_residue_dict "6").
  - vm_compute. reflexivity.
  - reflexivity.
Defined.

(** * Order *)

(** ** The order of the keys *)

(** Storing under [k] adds [k] at the end of the keys unless it is one of
    them. *)
Lemma keys_dict_set (k v : string) (d : dict) :
  keys (dict_set k v d) = oset_add (keys d) k.
Proof.
  unfold oset_add.
  induction d as [| [k' v'] d IH]; cbn [dict_set keys map fst existsb].
  - reflexivity.
  - rewrite (String.eqb_sym k k').
    destruct (k' =? k); cbn [keys map fst orb]; [reflexivity |].
    fold (keys (dict_set k v d)). fold (keys d). rewrite IH.
    now destruct (existsb (String.eqb k) (keys d)).
Qed.

Lemma select_all_keys (ls : list string) (d0 d : dict) :
  select_all ls d0 = Ok d ->
  keys d = fold_left oset_add (entry_keys ls) (keys d0).
Proof.
  revert d0. induction ls as [| line ls IH]; intros d0 H.
  - now injection H as <-.
  - cbn [select_all] in H.
    destruct (select line d0) as [d1 | e] eqn:E; [| discriminate].
    cbn [bind] in H. rewrite (IH d1 H).
    unfold entry_keys. cbn [flat_map]. rewrite fold_left_app.
    f_equal. apply select_entry in E. subst d1.
    destruct (entry line) as [[k v] |]; [| reflexivity].
    cbn [fold_left]. apply keys_dict_set.
Qed.

(** ** The ordered set of a mapped ordered set *)

Lemma oset_snoc (l : list string) (x : string) :
  oset (l ++ [x]) = oset_add (oset l) x.
Proof.
  unfold oset. now rewrite fold_left_app.
Qed.

Lemma existsb_oset (y : string) (l : list string) :
  existsb (String.eqb y) (oset l) = existsb (String.eqb y) l.
Proof.
  induction l as [| x l IH] using rev_ind; [reflexivity |].
  rewrite oset_snoc, existsb_app, <- IH. cbn [existsb].
  rewrite orb_false_r. unfold oset_add.
  destruct (existsb (String.eqb x) (oset l)) eqn:Ex.
  - destruct (String.eqb_spec y x) as [-> | _].
    + now rewrite Ex.
    + now rewrite orb_false_r.
  - rewrite existsb_app. cbn [existsb]. now rewrite orb_false_r.
Qed.

Lemma oset_map_oset (f : string -> string) (l : list string) :
  oset (map f (oset l)) = oset (map f l).
Proof.
  induction l as [| x l IH] using rev_ind; [reflexivity |].
  rewrite (oset_snoc l x), map_app. cbn [map].
  rewrite (oset_snoc (map f l) (f x)).
  assert (Hadd : oset_add (oset l) x =
                 if existsb (String.eqb x) (oset l) then oset l
                 else (oset l ++ [x])%list) by reflexivity.
  rewrite Hadd. clear Hadd.
  destruct (existsb (String.eqb x) (oset l)) eqn:Ex.
  - rewrite IH. unfold oset_add.
    assert (Hf : existsb (String.eqb (f x)) (oset (map f l)) = true).
    { rewrite existsb_oset in Ex |- *.
      apply existsb_exists in Ex as (y & Hy & Exy).
      apply String.eqb_eq in Exy. subst y.
      apply existsb_exists. exists (f x). split.
      - now apply in_map.
      - apply String.eqb_refl. }
    now rewrite Hf.
  - rewrite map_app. cbn [map].
    rewrite (oset_snoc (map f (oset l)) (f x)). now rewrite IH.
Qed.

(** ** The order of the records *)

Lemma select_all_key_stays (k : string) (ls : list string) (d1 d : dict)
    (v1 : string) :
  select_all ls d1 = Ok d ->
  dict_get d1 k = Some v1 ->
  exists v, dict_get d k = Some v.
Proof.
  revert d1 v1. induction ls as [| line ls IH]; intros d1 v1 H Hg.
  - injection H as <-. eauto.
  - cbn [select_all] in H.
    destruct (select line d1) as [d2 | e] eqn:E; [| discriminate].
    cbn [bind] in H. apply select_entry in E.
    destruct (entry line) as [[k0 v0] |]; subst d2; [| eauto].
    destruct (String.eqb_spec k k0) as [-> | Hne].
    + eapply IH; [exact H | apply dict_get_set_same].
    + eapply IH; [exact H |].
      rewrite dict_get_set_other by exact Hne. exact Hg.
Qed.

Lemma select_all_key_present (k v : string) (ls : list string) (d0 d : dict)
    (line : string) :
  select_all ls d0 = Ok d ->
  In line ls ->
  entry line = Some (k, v) ->
  exists v', dict_get d k = Some v'.
Proof.
  revert d0. induction ls as [| l ls IH]; intros d0 H Hin He;
    [contradiction |].
  cbn [select_all] in H.
  destruct (select l d0) as [d1 | e] eqn:E; [| discriminate].
  cbn [bind] in H. destruct Hin as [-> | Hin].
  - apply select_entry in E. rewrite He in E. subst d1.
    eapply select_all_key_stays; [exact H | apply dict_get_set_same].
  - eapply IH; eauto.
Qed.

(** When no two lines disagree on a key, [d[k]] is the value of any line
    that has an entry for [k]. *)
Lemma select_all_consistent (k v : string) (ls : list string) (d : dict) :
  consistent ls ->
  select_all ls [] = Ok d ->
  dict_get d k = Some v <->
  exists line, In line ls /\ entry line = Some (k, v).
Proof.
  intros Hc H. split.
  - intros Hg. apply (select_all_last k ls [] d H v) in Hg.
    destruct Hg as [(before & line & after & -> & He & _) | [Hg _]];
      [| discriminate].
    exists line. split; [apply in_elt | exact He].
  - intros (line & Hin & He).
    destruct (select_all_key_present k v ls [] d line H Hin He)
      as [v' Hg].
    pose proof Hg as Hg'.
    apply (select_all_last k ls [] d H v') in Hg'.
    destruct Hg' as [(before & line' & after & E & He' & _) | [Hg' _]];
      [| discriminate].
    assert (Hin' : In line' ls) by (rewrite E; apply in_elt).
    now rewrite (Hc line line' k v v' Hin Hin' He He').
Qed.

(** * Order: further claims *)

(** X10: the keys of a returned dictionary are the keys stored by the
    active lines, in the order of the lines, each at its first occurrence:
    a later line with the same key changes the value, not the position,
    and no key occurs twice. *)
Theorem keys_in_order_of_first_entry (lines : list string) (d : dict) :
  get_dict_selections lines = Ok d ->
  keys d = first_occurrences (entry_keys (parsed lines))
  /\ NoDup (keys d).
Proof.
  intros H. apply get_dict_selections_Ok in H.
  assert (E : keys d = first_occurrences (entry_keys (parsed lines))).
  { rewrite (select_all_keys (parsed lines) [] d H).
    apply oset_first_occurrences. }
  split; [exact E |].
  rewrite E. apply first_occurrences_upto_NoDup.
Qed.

Lemma keys_in_order_of_first_entry_witness :
  keys [("C1_5", "99"); ("O5_5", "11")]
  = first_occurrences (entry_keys (parsed duplicate_file))
  /\ NoDup (keys [("C1_5", "99"); ("O5_5", "11")]).
Proof.
  apply keys_in_order_of_first_entry. reflexivity.
Defined.

(** X11: the residue ids that the formatter visits for a returned
    dictionary are the second fields of the keys stored by the active
    lines, in the order of the lines, each at its first occurrence: the
    blocks come in the order in which the residues first get an entry in
    the file. *)
Theorem residues_in_file_order (lines : list string) (d : dict) :
  get_dict_selections lines = Ok d ->
  resids_of d
  = Ok (first_occurrences (map derived_id (entry_keys (parsed lines)))).
Proof.
  intros H. rewrite (resids_of_selected lines d H).
  apply get_dict_selections_Ok in H.
  rewrite (select_all_keys (parsed lines) [] d H).
  change (fold_left oset_add (entry_keys (parsed lines)) (keys []))
    with (oset (entry_keys (parsed lines))).
  now rewrite <- !oset_first_occurrences, oset_map_oset.
Qed.

Lemma residues_in_file_order_witness :
  resids_of two_residue_dict
  = Ok (first_occurrences
          (map derived_id (entry_keys (parsed two_residue_file)))).
Proof.
  apply residues_in_file_order. vm_compute. reflexivity.
Defined.

(** X12: the order of the records does not change the lookups.  In a
    section with a title line and a separating line, when no two records
    store different indices under one key, rearranging the records gives
    a dictionary with the same value under every key (the order of its
    keys may differ). *)
Theorem record_order_keeps_lookups (col sep : string)
    (records records' : list string) (d : dict) :
  contains "[ bonds ]" col = false ->
  contains "[ bonds ]" sep = false ->
  Forall (fun l => contains "[ bonds ]" l = false) records ->
  consistent records ->
  Permutation records records' ->
  get_dict_selections
    ([ln "[ atoms ]"; col] ++ records ++ [sep; ln "[ bonds ]"]) = Ok d ->
  exists d',
    get_dict_selections
      ([ln "[ atoms ]"; col] ++ records' ++ [sep; ln "[ bonds ]"]) = Ok d'
    /\ forall k, dict_get d' k = dict_get d k.
Proof.
  intros Hcol Hsep Hnb Hc Hperm H.
  rewrite get_dict_selections_section in H by assumption.
  assert (Hnb' : Forall (fun l => contains "[ bonds ]" l = false) records')
    by exact (Permutation_Forall Hperm Hnb).
  rewrite get_dict_selections_section by assumption.
  assert (Hwf : Forall (fun l => well_formed l = true) records)
    by (apply (select_all_Ok_iff records []); eauto).
  destruct (proj2 (select_all_Ok_iff records' [])
              (Permutation_Forall Hperm Hwf)) as [d' H'].
  exists d'. split; [exact H' |].
  assert (Hc' : consistent records').
  { intros l1 l2 k v1 v2 H1 H2.
    apply (Hc l1 l2 k v1 v2).
    - exact (Permutation_in l1 (Permutation_sym Hperm) H1).
    - exact (Permutation_in l2 (Permutation_sym Hperm) H2). }
  assert (Hiff : forall k v, dict_get d' k = Some v <-> dict_get d k = Some v).
  { intros k v.
    rewrite (select_all_consistent k v records' d' Hc' H').
    rewrite (select_all_consistent k v records d Hc H).
    split; intros (line & Hin & He); exists line; (split; [| exact He]).
    - exact (Permutation_in line (Permutation_sym Hperm) Hin).
    - exact (Permutation_in line Hperm Hin). }
  intros k.
  destruct (dict_get d' k) as [v' |] eqn:E'.
  - symmetry. now apply Hiff.
  - destruct (dict_get d k) as [v |] eqn:E; [| reflexivity].
    apply Hiff in E. congruence.
Qed.

Lemma ring_records_consistent : consistent ring_records.
Proof.
  intros l1 l2 k v1 v2 H1 H2 E1 E2. cbn in H1, H2.
  repeat (destruct H1 as [<- | H1]; [| try contradiction]);
    repeat (destruct H2 as [<- | H2]; [| try contradiction]);
    vm_compute in E1, E2; congruence.
Qed.

Lemma record_order_keeps_lookups_witness :
  exists d',
    get_dict_selections
      ([ln "[ atoms ]"; ln "; nr"] ++ rev ring_records
         ++ [nl; ln "[ bonds ]"]) = Ok d'
    /\ forall k,
         dict_get d' k
         = dict_get [("C1_5", "10"); ("O5_5", "11"); ("C5_5", "12");
                     ("C4_5", "13"); ("C3_5", "14"); ("C2_5", "15")] k.
Proof.
  apply (record_order_keeps_lookups (ln "; nr") nl ring_records).
  - reflexivity.
  - reflexivity.
  - repeat constructor.
  - exact ring_records_consistent.
  - apply Permutation_rev.
  - vm_compute. reflexivity.
Defined.

(** * The usual layout of a topology *)

(** Lines before the atoms section that hold neither marker are passed
    over with [start] unset. *)
Lemma scan_from_preamble (pre rest : list string) (prev marker : string)
    (d : dict) :
  Forall (fun l => contains "[ atoms ]" l = false /\
                   contains "[ bonds ]" l = false) pre ->
  contains "[ atoms ]" prev = false ->
  contains "[ bonds ]" marker = false ->
  exists prev',
    contains "[ atoms ]" prev' = false /\
    scan_from prev (pre ++ marker :: rest) false d
    = scan_from prev' (marker :: rest) false d.
Proof.
  intros Hpre. revert prev.
  induction Hpre as [| p pre [Hpa Hpb] Hrest IH]; intros prev Hprev Hm.
  - exists prev. auto.
  - destruct (IH p Hpa Hm) as (prev' & Hprev' & E).
    exists prev'. split; [exact Hprev' |].
    rewrite <- E. cbn [app scan_from].
    assert (Hnext : exists next tail,
               (pre ++ marker :: rest)%list = next :: tail /\
               contains "[ bonds ]" next = false).
    { destruct Hrest as [| p' pre' [_ Hb'] _]; cbn [app]; eauto. }
    destruct Hnext as (next & tail & En & Hn).
    rewrite En, Hn. cbn [bind]. now rewrite Hprev.
Qed.

(** X13: the usual layout.  In a file made of lines without markers, the
    [[ atoms ]] header, one further line, the records, one further line,
    a [[ bonds ]] line and anything after it (the last line of the file
    not holding the [[ atoms ]] marker), the selector runs [select] on
    exactly the records: the line after the header and the line before
    [[ bonds ]] are not read as records, whatever they hold. *)
Theorem atoms_section_selected (pre recs post : list string)
    (marker col sep stop : string) :
  Forall (fun l => contains "[ atoms ]" l = false /\
                   contains "[ bonds ]" l = false) pre ->
  contains "[ atoms ]" marker = true ->
  contains "[ bonds ]" marker = false ->
  contains "[ bonds ]" col = false ->
  Forall (fun l => contains "[ bonds ]" l = false) recs ->
  contains "[ bonds ]" sep = false ->
  contains "[ bonds ]" stop = true ->
  contains "[ atoms ]" (last (stop :: post) "") = false ->
  get_dict_selections
    (pre ++ marker :: col :: recs ++ sep :: stop :: post)
  = select_all recs [].
Proof.
  intros Hpre Hma Hmb Hcol Hrecs Hsep Hstop Hlast.
  rewrite get_dict_selections_scan_from.
  replace (last (pre ++ marker :: col :: recs ++ sep :: stop :: post) "")
    with (last (stop :: post) "").
  2:{ rewrite last_app_cons.
      change (marker :: col :: recs ++ sep :: stop :: post)%list
        with ([marker; col] ++ recs ++ sep :: stop :: post)%list.
      rewrite app_assoc, last_app_cons.
      change (sep :: stop :: post)%list with ([sep] ++ stop :: post)%list.
      now rewrite last_app_cons. }
  destruct (scan_from_preamble pre (col :: recs ++ sep :: stop :: post)
              (last (stop :: post) "") marker [] Hpre Hlast Hmb)
    as (prev' & Hprev' & E).
  rewrite E. cbn [scan_from]. rewrite Hcol. cbn [bind].
  assert (Hnext : exists next tail,
             (recs ++ sep :: stop :: post)%list = next :: tail /\
             contains "[ bonds ]" next = false).
  { destruct Hrecs as [| r' recs' Hr' _]; cbn [app]; eauto. }
  destruct Hnext as (next & tail & En & Hn).
  rewrite En, Hn, <- En. cbn [bind]. rewrite Hprev', Hma. cbn [orb].
  now apply scan_from_records.
Qed.

Lemma atoms_section_selected_witness :
  get_dict_selections topology_file
  = select_all [ln "10 x 5 AIDOA C1"; ln "11 x 5 AIDOA O5"] [].
Proof.
  apply (atoms_section_selected
           [ln "[ moleculetype ]"; ln "IDOA 3"; nl]
           [ln "10 x 5 AIDOA C1"; ln "11 x 5 AIDOA O5"]
           [ln "10 11"; nl; ln "[ pairs ]"]
           (ln "[ atoms ]") (ln "; nr type resnr residue atom") nl
           (ln "[ bonds ]")).
  - repeat constructor.
  - reflexivity.
  - reflexivity.
  - reflexivity.
  - repeat constructor.
  - reflexivity.
  - reflexivity.
  - reflexivity.
Defined.

(** * What the formatter reads *)

Lemma ring_atoms_ext (d d' : dict) (r : string) :
  (forall a, In a ring_names ->
             dict_get d (a ++ "_" ++ r) = dict_get d' (a ++ "_" ++ r)) ->
  ring_atoms d r = ring_atoms d' r.
Proof.
  intros H. unfold ring_atoms, lookup.
  pose proof (H "C1" ltac:(cbn; tauto)) as H1.
  pose proof (H "O5" ltac:(cbn; tauto)) as H2.
  pose proof (H "C5" ltac:(cbn; tauto)) as H3.
  pose proof (H "C4" ltac:(cbn; tauto)) as H4.
  pose proof (H "C3" ltac:(cbn; tauto)) as H5.
  pose proof (H "C2" ltac:(cbn; tauto)) as H6.
  cbn [append] in H1, H2, H3, H4, H5, H6 |- *.
  now rewrite H1, H2, H3, H4, H5, H6.
Qed.

Lemma restrain_ext (d d' : dict) (rs : list string) (s : string) :
  (forall r a, In r rs -> In a ring_names ->
               dict_get d (a ++ "_" ++ r) = dict_get d' (a ++ "_" ++ r)) ->
  restrain d rs s = restrain d' rs s.
Proof.
  revert s. induction rs as [| r rs IH]; intros s H; [reflexivity |].
  cbn [restrain].
  rewrite (ring_atoms_ext d d' r)
    by (intros a0 Ha0; apply H; [now left | exact Ha0]).
  destruct (ring_atoms d' r) as [b | e]; cbn [bind]; [| reflexivity].
  apply IH. intros r' a Hr' Ha. apply H; [now right | exact Ha].
Qed.

(** X14: the formatter reads a dictionary only through the residue ids
    derived from its keys and, for each id, the six keys [C1_id] ...
    [C2_id].  Two dictionaries that give the same ids and agree on those
    keys give the same output or the same exception; other entries, such
    as one for an atom name that merely contains [C1], change nothing
    beyond the ids. *)
Theorem format_restraint_reads_six_keys (d d' : dict) (rs : list string) :
  resids_of d = Ok rs ->
  resids_of d' = Ok rs ->
  (forall r a, In r rs -> In a ring_names ->
               dict_get d (a ++ "_" ++ r) = dict_get d' (a ++ "_" ++ r)) ->
  format_restraint d = format_restraint d'.
Proof.
  intros Hrs Hrs' H. unfold format_restraint.
  rewrite Hrs, Hrs'. cbn [bind].
  now rewrite (restrain_ext d d' rs _ H).
Qed.

Lemma format_restraint_reads_six_keys_witness :
  format_restraint ring_dict_with_c11 = format_restraint ring_dict.
Proof.
  apply (format_restraint_reads_six_keys ring_dict_with_c11 ring_dict ["5"]).
  - reflexivity.
  - reflexivity.
  - intros r a [<- | []] Ha. cbn in Ha.
    destruct Ha as [<- | [<- | [<- | [<- | [<- | [<- | []]]]]]];
      reflexivity.
Defined.
